(** * 800G topology viewer: layout generator and connection builders

    A shallow embedding of the data-producing core of
    [src/components/NetworkScene.tsx]: the layout [useMemo] of
    [NetworkScene], the two geometry memos of [Connections]
    ([staticGeo], [activeGeo]) and the geometry memo of
    [EscapeConnections].

    JavaScript numbers are modelled by rationals ([Q]).  Every coordinate
    the generator computes is a multiple of 1/4 of small magnitude, so the
    rational value is the value of the double.  The curve samples of the
    escape routes are the exact values that the doubles approximate; the
    statements below only use how many samples there are.  Loop counters
    are integers ([Z]), node ids are integers, optional fields are
    [option].  [NaN] and the infinities are outside the model. *)

From Stdlib Require Import String Ascii DecimalString DecimalZ DecimalPos.
From Stdlib Require Import List ZArith QArith Qround Lia Lqa Bool Permutation.
Import ListNotations.

Local Open Scope Z_scope.

(** ** Data model ([src/types.ts]) *)

Inductive NodeType : Type := spine | leaf | server.

Record Vector3 : Type := mkVector3 { x : Q; y : Q; z : Q }.

Record NodeData : Type := mkNodeData {
  id : Z;
  clusterId : option Z;
  type : NodeType;
  position : Vector3;
  groupId : option Z;
  label : string
}.

Record NetworkLayout : Type := mkNetworkLayout {
  spines : list NodeData;
  leafs : list NodeData;
  servers : list NodeData
}.

(** ** Constants for layout *)

Definition SPINE_COUNT : Z := 64.
Definition LEAF_GROUPS : Z := 16.
Definition LEAFS_PER_GROUP : Z := 8.
Definition SPINE_Y : Q := 15.
Definition LEAF_Y : Q := -5.
Definition SERVER_Y : Q := -25.
Definition SPINE_SPACING : Q := 5 # 2.
Definition GROUP_SPACING : Q := 10.
Definition LEAF_LOCAL_SPACING_Z : Q := 2.
Definition CLUSTER_SPACING_Z : Q := 60.

Definition SERVERS_PER_GROUP_STD : Z := 64.
Definition SERVERS_LAST_GROUP : Z := 56.
Definition SERVER_SPACING : Q := 1.

(** ** JavaScript primitives used by the code *)

(** [===] on an optional number field ([number | undefined]). *)
Definition opt_eqb (a b : option Z) : bool :=
  match a, b with
  | Some m, Some n => Z.eqb m n
  | None, None => true
  | _, _ => false
  end.

(** [a < b] and [a > b] on numbers. *)
Definition Qltb (a b : Q) : bool := negb (Qle_bool b a).

(** Template-literal rendering of an integer. *)
Definition show (n : Z) : string := NilZero.string_of_int (Z.to_int n).

(** The integers [0, 1, ..., n-1], the values a counter takes. *)
Definition range (n : nat) : list Z := map Z.of_nat (seq 0 n).

(** Number of times the body of [for (let c = 0; c < bound; c++)] runs. *)
Definition trip_count (bound : Q) : nat := Z.to_nat (Qceiling bound).

(** [for (let c = 0; c < bound; c++) body], as a state transformer. *)
Definition for_lt {St : Type} (bound : Q) (body : Z -> St -> St) (s : St) : St :=
  fold_left (fun st c => body c st) (range (trip_count bound)) s.

(** [xs.forEach(x => body)], as a state transformer. *)
Definition forEach {A St : Type} (xs : list A) (body : A -> St -> St) (s : St) : St :=
  fold_left (fun st a => body a st) xs s.

(** Big-step semantics of the counting loop, with the test of the source:
    [ForLoop bound body c s s'] says that the loop entered with counter
    [c] in state [s] exits in state [s']. *)
Inductive ForLoop {St : Type} (bound : Q) (body : Z -> St -> St) : Z -> St -> St -> Prop :=
| ForLoop_exit : forall c s,
    Qltb (inject_Z c) bound = false -> ForLoop bound body c s s
| ForLoop_step : forall c s s',
    Qltb (inject_Z c) bound = true ->
    ForLoop bound body (c + 1) (body c s) s' ->
    ForLoop bound body c s s'.

(** How a JavaScript evaluation ends. *)
Inductive Completion (A : Type) : Type :=
| Normal (v : A)
| Throw (err : string).
Arguments Normal {A} v.
Arguments Throw {A} err.

(** ** Layout generator ([NetworkScene], [layout] memo) *)

Record GenState : Type := mkGenState {
  st_spines : list NodeData;
  st_leafs : list NodeData;
  st_servers : list NodeData;
  globalIdCounter : Z
}.

(** [spines.push({ id: globalIdCounter++, ... })]: [mk] receives the id. *)
Definition push_spine (mk : Z -> NodeData) (st : GenState) : GenState :=
  mkGenState (st_spines st ++ [mk (globalIdCounter st)]) (st_leafs st)
             (st_servers st) (globalIdCounter st + 1).

Definition push_leaf (mk : Z -> NodeData) (st : GenState) : GenState :=
  mkGenState (st_spines st) (st_leafs st ++ [mk (globalIdCounter st)])
             (st_servers st) (globalIdCounter st + 1).

Definition push_server (mk : Z -> NodeData) (st : GenState) : GenState :=
  mkGenState (st_spines st) (st_leafs st)
             (st_servers st ++ [mk (globalIdCounter st)]) (globalIdCounter st + 1).

Local Open Scope Q_scope.

Definition clusterZOffset (c : Z) : Q := inject_Z c * CLUSTER_SPACING_Z * -1.

Definition totalSpineWidth : Q := (inject_Z SPINE_COUNT - 1) * SPINE_SPACING.
Definition spineStartX : Q := - totalSpineWidth / 2.

Definition new_spine (c i : Z) (gid : Z) : NodeData :=
  {| id := gid;
     clusterId := Some c;
     type := spine;
     position := mkVector3 (spineStartX + inject_Z i * SPINE_SPACING) SPINE_Y
                           (clusterZOffset c);
     groupId := None;
     label := ("C" ++ show (c + 1) ++ "-Spine-" ++ show (i + 1))%string |}.

Definition totalGroupWidth : Q := (inject_Z LEAF_GROUPS - 1) * GROUP_SPACING.
Definition groupStartX : Q := - totalGroupWidth / 2.
Definition groupCenterX (g : Z) : Q := groupStartX + inject_Z g * GROUP_SPACING.

Definition leaf_zOffset (l : Z) : Q :=
  (inject_Z l - (inject_Z LEAFS_PER_GROUP - 1) / 2) * LEAF_LOCAL_SPACING_Z.

Definition new_leaf (c g l : Z) (gid : Z) : NodeData :=
  {| id := gid;
     clusterId := Some c;
     type := leaf;
     position := mkVector3 (groupCenterX g) LEAF_Y (leaf_zOffset l + clusterZOffset c);
     groupId := Some g;
     label := ("C" ++ show (c + 1) ++ "-Leaf-G" ++ show (g + 1) ++ "-"
                   ++ show (l + 1))%string |}.

(** Body of the cluster loop: the spine loop, then the leaf loops. *)
Definition cluster_body (c : Z) (st : GenState) : GenState :=
  let st1 := for_lt (inject_Z SPINE_COUNT) (fun i => push_spine (new_spine c i)) st in
  for_lt (inject_Z LEAF_GROUPS)
    (fun g => for_lt (inject_Z LEAFS_PER_GROUP) (fun l => push_leaf (new_leaf c g l)))
    st1.

Definition baseZ (clusterCount : Q) : Q :=
  if Qltb 1 clusterCount then (0 + (CLUSTER_SPACING_Z * -1)) / 2 else 0.

Definition serverCount (g : Z) : Z :=
  if (g =? 15)%Z then SERVERS_LAST_GROUP else SERVERS_PER_GROUP_STD.

Definition totalLength (g : Z) : Q := (inject_Z (serverCount g) - 1) * SERVER_SPACING.

Definition server_zOffset (g s : Z) : Q :=
  (inject_Z s * SERVER_SPACING) - (totalLength g / 2).

Definition new_server (clusterCount : Q) (g s : Z) (gid : Z) : NodeData :=
  {| id := gid;
     clusterId := None;
     type := server;
     position := mkVector3 (groupCenterX g) SERVER_Y
                           (baseZ clusterCount + server_zOffset g s);
     groupId := Some g;
     label := ("Server-G" ++ show (g + 1) ++ "-" ++ show (s + 1))%string |}.

Definition server_body (clusterCount : Q) (g : Z) (st : GenState) : GenState :=
  for_lt (inject_Z (serverCount g))
    (fun s => push_server (new_server clusterCount g s)) st.

(** The memo callback: clusters first, then the servers when the mode is on. *)
Definition generate (clusterCount : Q) (isServerMode : bool) : GenState :=
  let st0 := mkGenState [] [] [] 0%Z in
  let st1 := for_lt clusterCount cluster_body st0 in
  if isServerMode
  then for_lt (inject_Z LEAF_GROUPS) (server_body clusterCount) st1
  else st1.

Definition layout (clusterCount : Q) (isServerMode : bool) : NetworkLayout :=
  let st := generate clusterCount isServerMode in
  mkNetworkLayout (st_spines st) (st_leafs st) (st_servers st).

(** The callback has no [throw] and dereferences nothing optional. *)
Definition layout_completion (clusterCount : Q) (isServerMode : bool)
  : Completion NetworkLayout :=
  Normal (layout clusterCount isServerMode).

(** ** Connections: geometry buffers as flat number arrays *)

(** [points.push(v.x, v.y, v.z)] *)
Definition push3 (v : Vector3) (points : list Q) : list Q :=
  (points ++ [x v; y v; z v])%list.

(** How a [lineSegments] object reads a position buffer: consecutive
    pairs of vertices, three numbers per vertex. *)
Fixpoint lineSegments (points : list Q) : list (Vector3 * Vector3) :=
  match points with
  | x1 :: y1 :: z1 :: x2 :: y2 :: z2 :: rest =>
      (mkVector3 x1 y1 z1, mkVector3 x2 y2 z2) :: lineSegments rest
  | _ => []
  end.

(** 1. Static full mesh geometry. *)
Definition staticGeo (layout : NetworkLayout) : list Q :=
  let points : list Q := [] in
  let points :=
    forEach (spines layout) (fun spine =>
      forEach (leafs layout) (fun leaf points =>
        if opt_eqb (clusterId spine) (clusterId leaf)
        then push3 (position leaf) (push3 (position spine) points)
        else points)) points in
  if (0 <? length (servers layout))%nat then
    forEach (servers layout) (fun server =>
      forEach (leafs layout) (fun leaf points =>
        if opt_eqb (groupId leaf) (groupId server)
        then push3 (position leaf) (push3 (position server) points)
        else points)) points
  else points.

Definition addLine (n1 n2 : NodeData) (points : list Q) : list Q :=
  push3 (position n2) (push3 (position n1) points).

(** 2. Active highlight geometry; [None] is the [null] of the source. *)
Definition activeGeo (layout : NetworkLayout) (hoveredNode : option NodeData)
  : option (list Q) :=
  match hoveredNode with
  | None => None
  | Some hovered =>
      let points : list Q := [] in
      Some
        match type hovered with
        | spine =>
            forEach (leafs layout) (fun leaf points =>
              if opt_eqb (clusterId leaf) (clusterId hovered)
              then addLine hovered leaf points else points) points
        | leaf =>
            let points :=
              forEach (spines layout) (fun spine points =>
                if opt_eqb (clusterId spine) (clusterId hovered)
                then addLine hovered spine points else points) points in
            forEach (servers layout) (fun server points =>
              if opt_eqb (groupId server) (groupId hovered)
              then addLine hovered server points else points) points
        | server =>
            forEach (leafs layout) (fun leaf points =>
              if opt_eqb (groupId leaf) (groupId hovered)
              then addLine hovered leaf points else points) points
        end
  end.

(** The only dereference of [hoveredNode] follows the [!hoveredNode] test. *)
Definition activeGeo_completion (layout : NetworkLayout)
  (hoveredNode : option NodeData) : Completion (option (list Q)) :=
  Normal (activeGeo layout hoveredNode).

(** ** Escape connections *)

(** [THREE.QuadraticBezierCurve3]: the interpolation and the sampling
    [getPoints(divisions)], which evaluates the curve at [d / divisions]
    for [d = 0 .. divisions]. *)
Definition QuadraticBezier (t p0 p1 p2 : Q) : Q :=
  (1 - t) * (1 - t) * p0 + 2 * (1 - t) * t * p1 + t * t * p2.

Definition getPoint (v0 v1 v2 : Vector3) (t : Q) : Vector3 :=
  mkVector3 (QuadraticBezier t (x v0) (x v1) (x v2))
            (QuadraticBezier t (y v0) (y v1) (y v2))
            (QuadraticBezier t (z v0) (z v1) (z v2)).

Definition getPoints (v0 v1 v2 : Vector3) (divisions : Z) : list Vector3 :=
  map (fun d => getPoint v0 v1 v2 (inject_Z d / inject_Z divisions))
      (range (Z.to_nat (divisions + 1))).

(** Sequencing of evaluations that may throw. *)
Definition bind {A B : Type} (m : Completion A) (k : A -> Completion B)
  : Completion B :=
  match m with
  | Normal v => k v
  | Throw e => Throw e
  end.

(** The counting loop whose body may throw. *)
Definition for_ltM {St : Type} (bound : Q) (body : Z -> St -> Completion St) (s : St)
  : Completion St :=
  fold_left (fun acc c => bind acc (body c)) (range (trip_count bound)) (Normal s).

(** [xs[k]]: [undefined] outside the array. *)
Definition index {A : Type} (xs : list A) (k : Z) : option A :=
  if (k <? 0)%Z then None else nth_error xs (Z.to_nat k).

(** [v.x], [v.y], [v.z] of an array element: a [TypeError] on [undefined]. *)
Definition deref {A : Type} (v : option A) : Completion A :=
  match v with
  | Some a => Normal a
  | None => Throw "TypeError"
  end.

Definition curveDepth : Q := 25.

(** The sub-segment loop over the sampled curve. *)
Definition push_curve (curvePoints : list Vector3) (points : list Q)
  : Completion (list Q) :=
  for_ltM (inject_Z (Z.of_nat (length curvePoints)) - 1)
    (fun k points =>
       bind (deref (index curvePoints k)) (fun p =>
       bind (deref (index curvePoints (k + 1))) (fun q =>
       Normal (push3 q (push3 p points)))))
    points.

Definition escape_curve (leafA leafB : NodeData) : list Vector3 :=
  let start := position leafA in
  let end_ := position leafB in
  let midX := (x start + x end_) / 2 in
  let midY := (y start + y end_) / 2 in
  let midZ := (z start + z end_) / 2 in
  let controlPoint := mkVector3 midX (midY - curveDepth) midZ in
  getPoints start controlPoint end_ 20.

Definition LEAFS_PER_CLUSTER : Z := LEAF_GROUPS * LEAFS_PER_GROUP.
Definition LAST_GROUP_OFFSET : Z := (LEAF_GROUPS - 1) * LEAFS_PER_GROUP.

(** The geometry memo of [EscapeConnections]; [None] is [null]. *)
Definition EscapeConnections (layout : NetworkLayout) (active : bool)
  (clusterCount : Q) : Completion (option (list Q)) :=
  if negb active || Qltb clusterCount 2 then Normal None
  else
    bind
      (for_ltM (clusterCount - 1) (fun c points =>
         let startIdxA := (c * LEAFS_PER_CLUSTER + LAST_GROUP_OFFSET)%Z in
         let startIdxB := ((c + 1) * LEAFS_PER_CLUSTER + LAST_GROUP_OFFSET)%Z in
         for_ltM (inject_Z LEAFS_PER_GROUP) (fun i points =>
           let leafA := index (leafs layout) (startIdxA + i) in
           let leafB := index (leafs layout) (startIdxB + i) in
           match leafA, leafB with
           | Some leafA, Some leafB => push_curve (escape_curve leafA leafB) points
           | _, _ => Normal points
           end) points) [])
      (fun points =>
         if (length points =? 0)%nat then Normal None else Normal (Some points)).

(** ** Vocabulary of the statements *)

(** Nodes of a sequence that carry group id [g]. *)
Definition in_group (g : Z) (nodes : list NodeData) : list NodeData :=
  filter (fun n => opt_eqb (groupId n) (Some g)) nodes.

(** Depth coordinates of the servers of group [g], in sequence order. *)
Definition group_depths (g : Z) (layout : NetworkLayout) : list Q :=
  map (fun s => z (position s)) (in_group g (servers layout)).

(** [zs] is symmetric around [base]: element [i] and element [i] from the
    end are mirror images of each other. *)
Definition symmetric_around (base : Q) (zs : list Q) : bool :=
  forallb (fun p => Qeq_bool (fst p + snd p) (2 * base)) (combine zs (rev zs)).

(** Consecutive elements of [zs] are [step] apart. *)
Fixpoint evenly_spaced (step : Q) (zs : list Q) : bool :=
  match zs with
  | a :: (b :: _) as rest => Qeq_bool (b - a) step && evenly_spaced step rest
  | _ => true
  end.

(** The six numbers of the segment from [p] to [q]. *)
Definition segment_points (p q : Vector3) : list Q :=
  [x p; y p; z p; x q; y q; z q].

Definition endpoints (pr : NodeData * NodeData) : Vector3 * Vector3 :=
  (position (fst pr), position (snd pr)).

(** Nodes of a sequence with the cluster id, or the group id, of [n]. *)
Definition same_cluster (n : NodeData) (nodes : list NodeData) : list NodeData :=
  filter (fun m => opt_eqb (clusterId m) (clusterId n)) nodes.

Definition same_group (n : NodeData) (nodes : list NodeData) : list NodeData :=
  filter (fun m => opt_eqb (groupId m) (groupId n)) nodes.

(** The (spine, leaf) pairs with equal cluster id and the (server, leaf)
    pairs with equal group id, spines and servers outermost. *)
Definition spine_leaf_pairs (layout : NetworkLayout) : list (NodeData * NodeData) :=
  filter (fun pr => opt_eqb (clusterId (fst pr)) (clusterId (snd pr)))
         (list_prod (spines layout) (leafs layout)).

Definition server_leaf_pairs (layout : NetworkLayout) : list (NodeData * NodeData) :=
  filter (fun pr => opt_eqb (groupId (snd pr)) (groupId (fst pr)))
         (list_prod (servers layout) (leafs layout)).

(** The lines the highlight builder draws from a focused node: to the
    leafs of its cluster for a spine, to the spines of its cluster and the
    servers of its group for a leaf, to the leafs of its group for a
    server. *)
Definition highlight_targets (layout : NetworkLayout) (hovered : NodeData)
  : list NodeData :=
  match type hovered with
  | spine => same_cluster hovered (leafs layout)
  | leaf => (same_cluster hovered (spines layout)
             ++ same_group hovered (servers layout))%list
  | server => same_group hovered (leafs layout)
  end.

Definition NodeType_eqb (a b : NodeType) : bool :=
  match a, b with
  | spine, spine | leaf, leaf | server, server => true
  | _, _ => false
  end.

(** Re-resolution of a focused node as the specification words it: the
    node of the current topology with the same id and type, if any, and a
    highlight builder that clears the focus when there is none. *)
Definition spec_resolve (layout : NetworkLayout) (hovered : NodeData)
  : option NodeData :=
  find (fun n => (id n =? id hovered)%Z && NodeType_eqb (type n) (type hovered))
       (spines layout ++ leafs layout ++ servers layout)%list.

Definition spec_activeGeo (layout : NetworkLayout) (hoveredNode : option NodeData)
  : option (list Q) :=
  match hoveredNode with
  | None => None
  | Some hovered =>
      match spec_resolve layout hovered with
      | None => None
      | Some n => activeGeo layout (Some n)
      end
  end.

Definition origin : Vector3 := mkVector3 0 0 0.

(** The straight sub-segments of a sampled curve: sample [k] to sample
    [k + 1]. *)
Definition curve_segments (curvePoints : list Vector3) : list (Vector3 * Vector3) :=
  map (fun k => (nth k curvePoints origin, nth (S k) curvePoints origin))
      (seq 0 (length curvePoints - 1)).

(** The leaf pairs the escape builder connects: for every cluster [c] with
    [c < clusterCount - 1] and every [i < 8], the leafs at positions
    [c * 128 + 120 + i] and [(c + 1) * 128 + 120 + i], when both exist. *)
Definition escape_pairs (layout : NetworkLayout) (clusterCount : Q)
  : list (NodeData * NodeData) :=
  flat_map (fun c =>
    flat_map (fun i =>
      match index (leafs layout) (c * LEAFS_PER_CLUSTER + LAST_GROUP_OFFSET + i),
            index (leafs layout) ((c + 1) * LEAFS_PER_CLUSTER + LAST_GROUP_OFFSET + i)
      with
      | Some leafA, Some leafB => [(leafA, leafB)]
      | _, _ => []
      end) (range (Z.to_nat LEAFS_PER_GROUP)))
    (range (trip_count (clusterCount - 1))).

Definition escape_segments (layout : NetworkLayout) (clusterCount : Q)
  : list (Vector3 * Vector3) :=
  flat_map (fun pr => curve_segments (escape_curve (fst pr) (snd pr)))
           (escape_pairs layout clusterCount).

(** The base depth as the specification words it: the midpoint between
    depth 0 and the offset of the last cluster when there is more than one
    cluster, else 0. *)
Definition spec_baseZ (clusterCount : Q) : Q :=
  if Qltb 1 clusterCount
  then (0 + - (clusterCount - 1) * CLUSTER_SPACING_Z) / 2
  else 0.

(** ** Closed forms and invariants of the generation pass *)

(** Nodes built from consecutive ids. *)
Fixpoint number_from (gid : Z) (mks : list (Z -> NodeData)) : list NodeData :=
  match mks with
  | [] => []
  | mk :: rest => mk gid :: number_from (gid + 1) rest
  end.

(** Appending a block of nodes to one of the three arrays. *)
Definition add_nodes (k : NodeType) (mks : list (Z -> NodeData)) (st : GenState)
  : GenState :=
  let block := number_from (globalIdCounter st) mks in
  let next := (globalIdCounter st + Z.of_nat (length mks))%Z in
  match k with
  | spine => mkGenState (st_spines st ++ block) (st_leafs st) (st_servers st) next
  | leaf => mkGenState (st_spines st) (st_leafs st ++ block) (st_servers st) next
  | server => mkGenState (st_spines st) (st_leafs st) (st_servers st ++ block) next
  end.

(** The constructors of the nodes of one cluster, in push order. *)
Definition cluster_spines (c : Z) : list (Z -> NodeData) :=
  map (new_spine c) (range (Z.to_nat SPINE_COUNT)).

Definition cluster_leafs (c : Z) : list (Z -> NodeData) :=
  flat_map (fun g => map (new_leaf c g) (range (Z.to_nat LEAFS_PER_GROUP)))
           (range (Z.to_nat LEAF_GROUPS)).

Definition all_servers (clusterCount : Q) : list (Z -> NodeData) :=
  flat_map (fun g => map (new_server clusterCount g)
                         (range (Z.to_nat (serverCount g))))
           (range (Z.to_nat LEAF_GROUPS)).

Definition gen_spines (n : nat) : list NodeData :=
  flat_map (fun c => number_from (192 * c) (cluster_spines c)) (range n).

Definition gen_leafs (n : nat) : list NodeData :=
  flat_map (fun c => number_from (192 * c + 64) (cluster_leafs c)) (range n).

Definition gen_servers (clusterCount : Q) : list NodeData :=
  number_from (192 * Z.of_nat (trip_count clusterCount)) (all_servers clusterCount).

Definition all_ids (st : GenState) : list Z :=
  map id (st_spines st ++ st_leafs st ++ st_servers st).

(** Invariant of the generation pass: the ids handed out so far are
    pairwise distinct and all below the counter. *)
Definition ids_fresh (st : GenState) : Prop :=
  NoDup (all_ids st) /\ Forall (fun i => (i < globalIdCounter st)%Z) (all_ids st).

(** The constructor stores the id it is given. *)
Definition keeps_id (mk : Z -> NodeData) : Prop := forall gid, id (mk gid) = gid.

Definition spine_shape (clusterCount : Q) (n : NodeData) : Prop :=
  type n = spine
  /\ (exists c, clusterId n = Some c /\ (0 <= c)%Z /\ inject_Z c < clusterCount)
  /\ groupId n = None.

Definition leaf_shape (clusterCount : Q) (n : NodeData) : Prop :=
  type n = leaf
  /\ (exists c, clusterId n = Some c /\ (0 <= c)%Z /\ inject_Z c < clusterCount)
  /\ (exists g, groupId n = Some g /\ (0 <= g <= 15)%Z).

Definition server_shape (n : NodeData) : Prop :=
  type n = server
  /\ clusterId n = None
  /\ (exists g, groupId n = Some g /\ (0 <= g <= 15)%Z).

Definition server_view (clusterCount : Q) : list (option Z * Q) :=
  flat_map (fun g => map (fun s => (Some g, baseZ clusterCount + server_zOffset g s))
                         (range (Z.to_nat (serverCount g))))
           (range (Z.to_nat LEAF_GROUPS)).

(** The buffer of the escape routes, pair by pair. *)
Definition escape_buffer (L : NetworkLayout) (clusterCount : Q) : list Q :=
  flat_map (fun sg => segment_points (fst sg) (snd sg))
           (escape_segments L clusterCount).

(** The ids handed out so far are exactly the integers below the counter. *)
Definition ids_dense (st : GenState) : Prop :=
  (0 <= globalIdCounter st)%Z
  /\ Permutation (all_ids st) (range (Z.to_nat (globalIdCounter st))).

(** Equal coordinates. *)
Definition Veq (p q : Vector3) : Prop := x p == x q /\ y p == y q /\ z p == z q.

(** Each segment starts where the previous one ends. *)
Fixpoint chained (sgs : list (Vector3 * Vector3)) : Prop :=
  match sgs with
  | a :: (b :: _) as rest => snd a = fst b /\ chained rest
  | _ => True
  end.

(** The segments [sgs] are one escape route from [leafA] to [leafB]: 20
    sub-segments, the first starting at the position of [leafA], the last
    ending at the position of [leafB], each starting where the previous
    one ends. *)
Definition joins (leafA leafB : NodeData) (sgs : list (Vector3 * Vector3)) : Prop :=
  length sgs = 20%nat
  /\ (exists p q, nth_error sgs 0 = Some (p, q) /\ Veq p (position leafA))
  /\ (exists p q, nth_error sgs 19 = Some (p, q) /\ Veq q (position leafB))
  /\ chained sgs.

(** The buffer of a sequence of segments. *)
Definition encode (sgs : list (Vector3 * Vector3)) : list Q :=
  flat_map (fun sg => segment_points (fst sg) (snd sg)) sgs.

(** ** Node instances ([NodeInstances], the per-frame colour pass) *)

(** [hoveredNode?.id === node.id && hoveredNode?.type === node.type] *)
Definition isHovered (hoveredNode : option NodeData) (node : NodeData) : bool :=
  match hoveredNode with
  | Some hovered =>
      (id hovered =? id node)%Z && NodeType_eqb (type hovered) (type node)
  | None => false
  end.

(** The flag [highlight] after the four tests of the colour pass. *)
Definition highlight (hoveredNode : option NodeData) (node : NodeData) : bool :=
  let highlight := false in
  match hoveredNode with
  | Some hovered =>
      let highlight :=
        if NodeType_eqb (type hovered) spine && NodeType_eqb (type node) leaf
           && opt_eqb (clusterId hovered) (clusterId node)
        then true else highlight in
      let highlight :=
        if NodeType_eqb (type hovered) leaf && NodeType_eqb (type node) spine
           && opt_eqb (clusterId hovered) (clusterId node)
        then true else highlight in
      let highlight :=
        if NodeType_eqb (type hovered) server && NodeType_eqb (type node) leaf
           && opt_eqb (groupId hovered) (groupId node)
        then true else highlight in
      let highlight :=
        if NodeType_eqb (type hovered) leaf && NodeType_eqb (type node) server
           && opt_eqb (groupId hovered) (groupId node)
        then true else highlight in
      highlight
  | None => highlight
  end.

(** ** The scene component ([NetworkScene]): state and event handlers *)

(** [target] of the orbit controls. *)
Definition orbitTarget (clusterCount : Q) : Vector3 :=
  mkVector3 0 0 (-30 * (clusterCount - 1)).

Module Scene.

(** The two callbacks [runAutoSequence] hands to [setTimeout], after 2000
    and after 4000 milliseconds. *)
Inductive Timer : Type := escapeTimer | serverTimer.

(** The five state variables of the component, and the timers that are
    set and have not fired yet, the earliest first. *)
Record State : Type := mkState {
  hoveredNode : option NodeData;
  clusterCount : Z;
  isEscapeMode : bool;
  isServerMode : bool;
  isAutoAnimating : bool;
  timers : list Timer
}.

Definition initial : State := mkState None 1 false false false [].

(** The topology rendered in a state. *)
Definition layout_of (st : State) : NetworkLayout :=
  layout (inject_Z (clusterCount st)) (isServerMode st).

(** The [data] array of each of the three instanced meshes. *)
Definition data_of (st : State) (mesh : NodeType) : list NodeData :=
  match mesh with
  | spine => spines (layout_of st)
  | leaf => leafs (layout_of st)
  | server => servers (layout_of st)
  end.

Inductive Event : Type :=
| clickAuto
| clickAddCluster
| clickEscape
| clickServers
| pointerOver (mesh : NodeType) (instanceId : option nat)
| pointerOut
| timeout.

(** One event.  The four buttons are disabled while [isAutoAnimating];
    [pointerOver] stores [data[instanceId]] when there is an instance id;
    [timeout] runs the earliest pending timer. *)
Definition step (st : State) (ev : Event) : State :=
  match ev with
  | clickAuto =>
      if isAutoAnimating st then st
      else mkState (hoveredNode st) (clusterCount st + 1) (isEscapeMode st)
                   (isServerMode st) true
                   (timers st ++ [escapeTimer; serverTimer])
  | clickAddCluster =>
      if isAutoAnimating st then st
      else mkState (hoveredNode st) (clusterCount st + 1) (isEscapeMode st)
                   (isServerMode st) (isAutoAnimating st) (timers st)
  | clickEscape =>
      if isAutoAnimating st then st
      else mkState (hoveredNode st) (clusterCount st) (negb (isEscapeMode st))
                   (isServerMode st) (isAutoAnimating st) (timers st)
  | clickServers =>
      if isAutoAnimating st then st
      else mkState (hoveredNode st) (clusterCount st) (isEscapeMode st)
                   (negb (isServerMode st)) (isAutoAnimating st) (timers st)
  | pointerOver mesh (Some instanceId) =>
      mkState (nth_error (data_of st mesh) instanceId) (clusterCount st)
              (isEscapeMode st) (isServerMode st) (isAutoAnimating st) (timers st)
  | pointerOver mesh None => st
  | pointerOut =>
      mkState None (clusterCount st) (isEscapeMode st) (isServerMode st)
              (isAutoAnimating st) (timers st)
  | timeout =>
      match timers st with
      | [] => st
      | escapeTimer :: rest =>
          mkState (hoveredNode st) (clusterCount st) (negb (isEscapeMode st))
                  (isServerMode st) (isAutoAnimating st) rest
      | serverTimer :: rest =>
          mkState (hoveredNode st) (clusterCount st) (isEscapeMode st)
                  (negb (isServerMode st)) false rest
      end
  end.

Definition run (st : State) (evs : list Event) : State := fold_left step evs st.

(** States the component can be in. *)
Inductive reachable : State -> Prop :=
| reachable_initial : reachable initial
| reachable_step : forall st ev, reachable st -> reachable (step st ev).

(** A click on one of the four buttons. *)
Definition is_click (ev : Event) : bool :=
  match ev with
  | clickAuto | clickAddCluster | clickEscape | clickServers => true
  | _ => false
  end.

(** Either no sequence is running and no timer is pending, or one is
    running with its two timers, or its last timer, pending. *)
Definition timers_consistent (st : State) : Prop :=
  (isAutoAnimating st = false /\ timers st = [])
  \/ (isAutoAnimating st = true
      /\ (timers st = [escapeTimer; serverTimer] \/ timers st = [serverTimer])).

(** A focused node is a server, or a spine or leaf of the rendered
    topology. *)
Definition focus_present (st : State) : Prop :=
  match hoveredNode st with
  | None => True
  | Some h =>
      type h = server
      \/ In h (spines (layout_of st)) \/ In h (leafs (layout_of st))
  end.

End Scene.

(** ** Decimal digits in labels *)

Definition is_digit (ch : ascii) : bool :=
  (48 <=? nat_of_ascii ch)%nat && (nat_of_ascii ch <=? 57)%nat.

Fixpoint all_digits (s : string) : bool :=
  match s with
  | EmptyString => true
  | String ch rest => is_digit ch && all_digits rest
  end.

(** * Properties *)

(** ** The counting loop *)

Lemma Qltb_true (a b : Q) : Qltb a b = true <-> a < b.
Proof.
  unfold Qltb. rewrite negb_true_iff. split; intro H.
  - apply Qnot_le_lt. intro Hle. apply Qle_bool_iff in Hle. congruence.
  - destruct (Qle_bool b a) eqn:E; [|reflexivity].
    apply Qle_bool_iff in E. exfalso. exact (Qlt_not_le _ _ H E).
Qed.

Lemma Qltb_false (a b : Q) : Qltb a b = false <-> b <= a.
Proof.
  unfold Qltb. rewrite negb_false_iff. apply Qle_bool_iff.
Qed.

Lemma range_length (n : nat) : length (range n) = n.
Proof. unfold range. now rewrite length_map, length_seq. Qed.

Lemma range_S (n : nat) : range (S n) = (range n ++ [Z.of_nat n])%list.
Proof. unfold range. now rewrite seq_S, map_app. Qed.

Lemma in_range (n : nat) (c : Z) : In c (range n) <-> (0 <= c < Z.of_nat n)%Z.
Proof.
  unfold range. rewrite in_map_iff. split.
  - intros (k & <- & Hk). apply in_seq in Hk. lia.
  - intros Hc. exists (Z.to_nat c). split; [lia|]. apply in_seq. lia.
Qed.

(** The loop test holds exactly below the trip count. *)
Lemma lt_trip_count (bound : Q) (c : Z) :
  (0 <= c)%Z -> (inject_Z c < bound <-> (c < Z.of_nat (trip_count bound))%Z).
Proof.
  intros Hc. unfold trip_count. split; intro H.
  - assert (Hcl : (c < Qceiling bound)%Z).
    { rewrite Zlt_Qlt. eapply Qlt_le_trans; [exact H|apply Qle_ceiling]. }
    lia.
  - assert (Hcl : (c <= Qceiling bound - 1)%Z) by lia.
    eapply Qle_lt_trans; [|apply Qceiling_lt].
    now rewrite Zle_Qle in Hcl.
Qed.

Lemma in_range_trip (bound : Q) (c : Z) :
  In c (range (trip_count bound)) <-> (0 <= c)%Z /\ inject_Z c < bound.
Proof.
  rewrite in_range. split.
  - intros [H0 H1]. split; [exact H0|]. now apply lt_trip_count.
  - intros [H0 H1]. split; [exact H0|]. now apply lt_trip_count.
Qed.

Lemma trip_count_inject_Z (n : Z) : trip_count (inject_Z n) = Z.to_nat n.
Proof. unfold trip_count. now rewrite Qceiling_Z. Qed.

Section CountingLoop.

Context {St : Type} (bound : Q) (body : Z -> St -> St).

Lemma ForLoop_from (m k : nat) (s : St) :
  (k + m = trip_count bound)%nat ->
  ForLoop bound body (Z.of_nat k) s
    (fold_left (fun st c => body c st) (map Z.of_nat (seq k m)) s).
Proof.
  revert k s. induction m as [|m IH]; intros k s Hk.
  - apply ForLoop_exit. apply Qltb_false.
    destruct (Qlt_le_dec (inject_Z (Z.of_nat k)) bound) as [Hlt|Hle]; [|exact Hle].
    apply lt_trip_count in Hlt; lia.
  - cbn [seq map fold_left]. apply ForLoop_step.
    + apply Qltb_true. apply lt_trip_count; lia.
    + replace (Z.of_nat k + 1)%Z with (Z.of_nat (S k)) by lia.
      apply IH. lia.
Qed.

(** [for_lt] computes the state in which the source loop exits; in
    particular the loop exits for every rational bound. *)
Lemma for_lt_ForLoop (s : St) : ForLoop bound body 0 s (for_lt bound body s).
Proof.
  unfold for_lt, range. now apply (ForLoop_from (trip_count bound) 0).
Qed.

Lemma ForLoop_deterministic (c : Z) (s s1 s2 : St) :
  ForLoop bound body c s s1 -> ForLoop bound body c s s2 -> s1 = s2.
Proof.
  intros H1. revert s2. induction H1 as [c s Hf|c s s' Ht _ IH]; intros s2 H2.
  - inversion H2; subst; [reflexivity|congruence].
  - inversion H2; subst; [congruence|]. now apply IH.
Qed.

(** The exit state of the source loop is the one [for_lt] computes. *)
Lemma ForLoop_for_lt (s s' : St) :
  ForLoop bound body 0 s s' -> s' = for_lt bound body s.
Proof.
  intro H. exact (ForLoop_deterministic 0 s s' _ H (for_lt_ForLoop s)).
Qed.

Lemma for_lt_invariant (P : St -> Prop) :
  (forall c s, (0 <= c)%Z -> inject_Z c < bound -> P s -> P (body c s)) ->
  forall s, P s -> P (for_lt bound body s).
Proof.
  intros Hbody. unfold for_lt.
  assert (Hin : forall c, In c (range (trip_count bound)) ->
                          (0 <= c)%Z /\ inject_Z c < bound)
    by (intros c Hc; now apply in_range_trip).
  induction (range (trip_count bound)) as [|c l IH]; intros s Hs; [exact Hs|].
  cbn [fold_left]. apply IH.
  - intros c' Hc'. apply Hin. now right.
  - destruct (Hin c (or_introl eq_refl)). now apply Hbody.
Qed.

End CountingLoop.

(** ** Closed form of the generated sequences *)

Lemma number_from_app (gid : Z) (a b : list (Z -> NodeData)) :
  number_from gid (a ++ b)
  = (number_from gid a ++ number_from (gid + Z.of_nat (length a)) b)%list.
Proof.
  revert gid. induction a as [|mk a IH]; intro gid.
  - cbn. now rewrite Z.add_0_r.
  - cbn [app number_from length]. rewrite IH. do 3 f_equal. lia.
Qed.

Lemma number_from_length (gid : Z) (mks : list (Z -> NodeData)) :
  length (number_from gid mks) = length mks.
Proof. revert gid. induction mks; intro; cbn; [reflexivity|now rewrite IHmks]. Qed.

Lemma number_from_map (B : Type) (f : NodeData -> B) (g : (Z -> NodeData) -> B)
  (mks : list (Z -> NodeData)) :
  (forall mk, In mk mks -> forall gid, f (mk gid) = g mk) ->
  forall gid, map f (number_from gid mks) = map g mks.
Proof.
  induction mks as [|mk mks IH]; intros H gid; [reflexivity|].
  cbn [number_from map]. rewrite (H mk (or_introl eq_refl)). f_equal.
  apply IH. intros mk' Hin. apply H. now right.
Qed.

Lemma number_from_Forall (P : NodeData -> Prop) (mks : list (Z -> NodeData)) :
  (forall mk, In mk mks -> forall gid, P (mk gid)) ->
  forall gid, Forall P (number_from gid mks).
Proof.
  induction mks as [|mk mks IH]; intros H gid; [constructor|].
  cbn [number_from]. constructor.
  - apply H. now left.
  - apply IH. intros mk' Hin. apply H. now right.
Qed.

Lemma add_nodes_nil (k : NodeType) (st : GenState) : add_nodes k [] st = st.
Proof.
  destruct st, k; unfold add_nodes; cbn; now rewrite app_nil_r, Z.add_0_r.
Qed.

Lemma add_nodes_app (k : NodeType) (a b : list (Z -> NodeData)) (st : GenState) :
  add_nodes k (a ++ b) st = add_nodes k b (add_nodes k a st).
Proof.
  destruct st, k; unfold add_nodes; cbn;
    rewrite number_from_app, length_app, Nat2Z.inj_add, app_assoc, Z.add_assoc;
    reflexivity.
Qed.

Lemma push_spine_add (mk : Z -> NodeData) (st : GenState) :
  push_spine mk st = add_nodes spine [mk] st.
Proof. reflexivity. Qed.

Lemma push_leaf_add (mk : Z -> NodeData) (st : GenState) :
  push_leaf mk st = add_nodes leaf [mk] st.
Proof. reflexivity. Qed.

Lemma push_server_add (mk : Z -> NodeData) (st : GenState) :
  push_server mk st = add_nodes server [mk] st.
Proof. reflexivity. Qed.

(** A loop whose body appends a block appends the blocks in order. *)
Lemma fold_add_nodes (k : NodeType) (body : Z -> GenState -> GenState)
  (F : Z -> list (Z -> NodeData)) (l : list Z) :
  (forall i st, body i st = add_nodes k (F i) st) ->
  forall st, fold_left (fun st i => body i st) l st = add_nodes k (flat_map F l) st.
Proof.
  intros Hbody. induction l as [|i l IH]; intro st.
  - cbn. now rewrite add_nodes_nil.
  - cbn [fold_left flat_map]. now rewrite IH, Hbody, add_nodes_app.
Qed.

Lemma for_lt_add_nodes (k : NodeType) (bound : Q) (body : Z -> GenState -> GenState)
  (F : Z -> list (Z -> NodeData)) (st : GenState) :
  (forall i st, body i st = add_nodes k (F i) st) ->
  for_lt bound body st = add_nodes k (flat_map F (range (trip_count bound))) st.
Proof. intro H. unfold for_lt. now apply fold_add_nodes. Qed.

Lemma flat_map_single (A B : Type) (f : A -> B) (l : list A) :
  flat_map (fun a => [f a]) l = map f l.
Proof. induction l; cbn; [reflexivity|now rewrite IHl]. Qed.

Lemma cluster_spines_length (c : Z) : length (cluster_spines c) = 64%nat.
Proof. unfold cluster_spines. now rewrite length_map, range_length. Qed.

Lemma cluster_leafs_length (c : Z) : length (cluster_leafs c) = 128%nat.
Proof.
  unfold cluster_leafs.
  rewrite (flat_map_constant_length (c := 8)).
  - now rewrite range_length.
  - intros g _. now rewrite length_map, range_length.
Qed.

Lemma cluster_body_closed (c : Z) (st : GenState) :
  cluster_body c st
  = add_nodes leaf (cluster_leafs c) (add_nodes spine (cluster_spines c) st).
Proof.
  unfold cluster_body.
  rewrite (for_lt_add_nodes spine (inject_Z SPINE_COUNT)
             (fun i => push_spine (new_spine c i)) (fun i => [new_spine c i]))
    by (intros; apply push_spine_add).
  rewrite (for_lt_add_nodes leaf _ _
             (fun g => map (new_leaf c g) (range (Z.to_nat LEAFS_PER_GROUP)))).
  - now rewrite flat_map_single, !trip_count_inject_Z.
  - intros g st'.
    rewrite (for_lt_add_nodes leaf _ _ (fun l => [new_leaf c g l]))
      by (intros; apply push_leaf_add).
    now rewrite flat_map_single, trip_count_inject_Z.
Qed.

Lemma server_body_closed (clusterCount : Q) (g : Z) (st : GenState) :
  server_body clusterCount g st
  = add_nodes server
      (map (new_server clusterCount g) (range (Z.to_nat (serverCount g)))) st.
Proof.
  unfold server_body.
  rewrite (for_lt_add_nodes server _ _ (fun s => [new_server clusterCount g s]))
    by (intros; apply push_server_add).
  now rewrite flat_map_single, trip_count_inject_Z.
Qed.

Lemma clusters_closed (n : nat) :
  fold_left (fun st c => cluster_body c st) (range n) (mkGenState [] [] [] 0%Z)
  = mkGenState (gen_spines n) (gen_leafs n) [] (192 * Z.of_nat n).
Proof.
  induction n as [|n IH]; [reflexivity|].
  rewrite range_S, fold_left_app, IH. cbn [fold_left].
  rewrite cluster_body_closed. unfold add_nodes, gen_spines, gen_leafs.
  cbn [st_spines st_leafs st_servers globalIdCounter].
  rewrite !range_S, !flat_map_app, cluster_spines_length, cluster_leafs_length.
  cbn [flat_map]. rewrite !app_nil_r.
  f_equal. lia.
Qed.

(** The generated topology, sequence by sequence. *)
Lemma layout_closed (clusterCount : Q) (isServerMode : bool) :
  layout clusterCount isServerMode
  = mkNetworkLayout (gen_spines (trip_count clusterCount))
                    (gen_leafs (trip_count clusterCount))
                    (if isServerMode then gen_servers clusterCount else []).
Proof.
  assert (Hc : for_lt clusterCount cluster_body (mkGenState [] [] [] 0%Z)
               = mkGenState (gen_spines (trip_count clusterCount))
                            (gen_leafs (trip_count clusterCount)) []
                            (192 * Z.of_nat (trip_count clusterCount)))
    by (unfold for_lt; apply clusters_closed).
  unfold layout, generate. cbv zeta. rewrite Hc.
  destruct isServerMode; [|reflexivity].
  rewrite (for_lt_add_nodes server _ _
             (fun g => map (new_server clusterCount g)
                           (range (Z.to_nat (serverCount g)))))
    by (intros; apply server_body_closed).
  now rewrite trip_count_inject_Z.
Qed.

(** ** Positions of the nodes inside the sequences *)

Lemma nth_error_seq_lt (a n i : nat) :
  (i < n)%nat -> nth_error (seq a n) i = Some (a + i)%nat.
Proof.
  revert a i. induction n as [|n IH]; intros a i Hi; [lia|].
  destruct i as [|i]; cbn [seq nth_error].
  - f_equal. lia.
  - rewrite IH by lia. f_equal. lia.
Qed.

Lemma nth_error_range (n i : nat) :
  (i < n)%nat -> nth_error (range n) i = Some (Z.of_nat i).
Proof.
  intro Hi. unfold range. rewrite nth_error_map, nth_error_seq_lt by exact Hi.
  reflexivity.
Qed.

(** Inside a concatenation of blocks whose first [j] blocks have [k]
    elements each, block [j] starts at index [j * k]. *)
Lemma nth_error_flat_map_block (A B : Type) (f : A -> list B) (k : nat)
  (l : list A) (j i : nat) (a : A) :
  (forall j' a', (j' < j)%nat -> nth_error l j' = Some a' -> length (f a') = k) ->
  nth_error l j = Some a ->
  (i < length (f a))%nat ->
  nth_error (flat_map f l) (j * k + i) = nth_error (f a) i.
Proof.
  revert j. induction l as [|a0 l IH]; intros j Hpre Hj Hi.
  - destruct j; discriminate.
  - destruct j as [|j]; cbn [flat_map].
    + injection Hj as ->. cbn [Nat.mul Nat.add]. now rewrite nth_error_app1.
    + cbn [nth_error] in Hj.
      assert (H0 : length (f a0) = k) by (apply (Hpre 0%nat); [lia|reflexivity]).
      rewrite nth_error_app2 by (rewrite H0; cbn; lia).
      replace (S j * k + i - length (f a0))%nat with (j * k + i)%nat
        by (rewrite H0; cbn; lia).
      apply IH; [|exact Hj|exact Hi].
      intros j' a' Hlt Hn. apply (Hpre (S j')); [lia|exact Hn].
Qed.

Lemma nth_error_number_from (gid : Z) (mks : list (Z -> NodeData)) (i : nat)
  (mk : Z -> NodeData) :
  nth_error mks i = Some mk ->
  nth_error (number_from gid mks) i = Some (mk (gid + Z.of_nat i)%Z).
Proof.
  revert gid i. induction mks as [|mk0 mks IH]; intros gid i Hi.
  - destruct i; discriminate.
  - destruct i as [|i]; cbn [number_from nth_error] in *.
    + injection Hi as ->. now rewrite Z.add_0_r.
    + rewrite (IH _ _ Hi). do 2 f_equal. lia.
Qed.

Lemma cluster_spines_nth (c : Z) (i : nat) :
  (i < 64)%nat -> nth_error (cluster_spines c) i = Some (new_spine c (Z.of_nat i)).
Proof.
  intro Hi. unfold cluster_spines.
  now rewrite nth_error_map, nth_error_range.
Qed.

Lemma cluster_leafs_nth (c : Z) (g l : nat) :
  (g < 16)%nat -> (l < 8)%nat ->
  nth_error (cluster_leafs c) (g * 8 + l)
  = Some (new_leaf c (Z.of_nat g) (Z.of_nat l)).
Proof.
  intros Hg Hl. unfold cluster_leafs.
  rewrite (nth_error_flat_map_block _ _ _ 8 _ g l (Z.of_nat g)).
  - now rewrite nth_error_map, nth_error_range.
  - intros. now rewrite length_map, range_length.
  - now apply nth_error_range.
  - now rewrite length_map, range_length.
Qed.

(** Spine [i] of cluster [c] is element [64 c + i] of [spines]. *)
Lemma gen_spines_nth (n c i : nat) :
  (c < n)%nat -> (i < 64)%nat ->
  nth_error (gen_spines n) (c * 64 + i)
  = Some (new_spine (Z.of_nat c) (Z.of_nat i) (192 * Z.of_nat c + Z.of_nat i)).
Proof.
  intros Hc Hi. unfold gen_spines.
  rewrite (nth_error_flat_map_block _ _ _ 64 _ c i (Z.of_nat c)).
  - apply nth_error_number_from. now apply cluster_spines_nth.
  - intros. now rewrite number_from_length, cluster_spines_length.
  - now apply nth_error_range.
  - now rewrite number_from_length, cluster_spines_length.
Qed.

(** Leaf [l] of group [g] of cluster [c] is element [128 c + 8 g + l]
    of [leafs]. *)
Lemma gen_leafs_nth (n c g l : nat) :
  (c < n)%nat -> (g < 16)%nat -> (l < 8)%nat ->
  nth_error (gen_leafs n) (c * 128 + (g * 8 + l))
  = Some (new_leaf (Z.of_nat c) (Z.of_nat g) (Z.of_nat l)
            (192 * Z.of_nat c + 64 + Z.of_nat (g * 8 + l))).
Proof.
  intros Hc Hg Hl. unfold gen_leafs.
  rewrite (nth_error_flat_map_block _ _ _ 128 _ c (g * 8 + l) (Z.of_nat c)).
  - apply nth_error_number_from. now apply cluster_leafs_nth.
  - intros. now rewrite number_from_length, cluster_leafs_length.
  - now apply nth_error_range.
  - rewrite number_from_length, cluster_leafs_length. lia.
Qed.

Lemma gen_spines_length (n : nat) : length (gen_spines n) = (n * 64)%nat.
Proof.
  unfold gen_spines. rewrite (flat_map_constant_length (c := 64)).
  - now rewrite range_length.
  - intros c _. now rewrite number_from_length, cluster_spines_length.
Qed.

Lemma gen_leafs_length (n : nat) : length (gen_leafs n) = (n * 128)%nat.
Proof.
  unfold gen_leafs. rewrite (flat_map_constant_length (c := 128)).
  - now rewrite range_length.
  - intros c _. now rewrite number_from_length, cluster_leafs_length.
Qed.

Lemma gen_spines_Forall (P : NodeData -> Prop) (n : nat) :
  (forall c i gid, (0 <= c < Z.of_nat n)%Z -> (0 <= i < 64)%Z ->
                   P (new_spine c i gid)) ->
  Forall P (gen_spines n).
Proof.
  intro H. unfold gen_spines. apply Forall_flat_map, Forall_forall.
  intros c Hc. apply in_range in Hc. apply number_from_Forall.
  intros mk Hmk gid. unfold cluster_spines in Hmk.
  apply in_map_iff in Hmk as (i & <- & Hi). apply in_range in Hi.
  apply H; [exact Hc|cbn in Hi; lia].
Qed.

Lemma gen_leafs_Forall (P : NodeData -> Prop) (n : nat) :
  (forall c g l gid, (0 <= c < Z.of_nat n)%Z -> (0 <= g < 16)%Z -> (0 <= l < 8)%Z ->
                     P (new_leaf c g l gid)) ->
  Forall P (gen_leafs n).
Proof.
  intro H. unfold gen_leafs. apply Forall_flat_map, Forall_forall.
  intros c Hc. apply in_range in Hc. apply number_from_Forall.
  intros mk Hmk gid. unfold cluster_leafs in Hmk.
  apply in_flat_map in Hmk as (g & Hg & Hmk). apply in_range in Hg.
  apply in_map_iff in Hmk as (l & <- & Hl). apply in_range in Hl.
  apply H; [exact Hc|cbn in Hg; lia|cbn in Hl; lia].
Qed.

Lemma gen_servers_Forall (P : NodeData -> Prop) (clusterCount : Q) :
  (forall g s gid, (0 <= g < 16)%Z -> (0 <= s < serverCount g)%Z ->
                   P (new_server clusterCount g s gid)) ->
  Forall P (gen_servers clusterCount).
Proof.
  intro H. unfold gen_servers. apply number_from_Forall.
  intros mk Hmk gid. unfold all_servers in Hmk.
  apply in_flat_map in Hmk as (g & Hg & Hmk). apply in_range in Hg.
  apply in_map_iff in Hmk as (s & <- & Hs). apply in_range in Hs.
  apply H; [cbn in Hg; lia|lia].
Qed.

(** ** Counts and heights *)

(** C6: for every integer cluster count [n >= 0] the generator returns
    [64 n] spines and [128 n] leafs; leaf [l] of group [g] (16 groups of
    8) of cluster [c] sits at index [128 c + 8 g + l]; spines are at height
    [SPINE_Y = 15], leafs at [LEAF_Y = -5]; and for [n = 0] both sequences
    are empty, the callback completing normally. *)
Theorem layout_counts (n : Z) (isServerMode : bool) :
  (0 <= n)%Z ->
  let L := layout (inject_Z n) isServerMode in
  layout_completion (inject_Z n) isServerMode = Normal L
  /\ Z.of_nat (length (spines L)) = (64 * n)%Z
  /\ Z.of_nat (length (leafs L)) = (128 * n)%Z
  /\ (forall c g l, (0 <= c < n)%Z -> (0 <= g < 16)%Z -> (0 <= l < 8)%Z ->
        exists node, index (leafs L) (128 * c + 8 * g + l) = Some node
                     /\ clusterId node = Some c /\ groupId node = Some g)
  /\ Forall (fun s => y (position s) = SPINE_Y /\ SPINE_Y = 15) (spines L)
  /\ Forall (fun l => y (position l) = LEAF_Y /\ LEAF_Y = -5) (leafs L)
  /\ (n = 0%Z -> spines L = [] /\ leafs L = []).
Proof.
  intros Hn L. subst L. rewrite layout_closed, trip_count_inject_Z.
  cbn [spines leafs]. repeat split.
  - unfold layout_completion. now rewrite layout_closed, trip_count_inject_Z.
  - rewrite gen_spines_length. lia.
  - rewrite gen_leafs_length. lia.
  - intros c g l Hc Hg Hl.
    exists (new_leaf c g l (192 * c + 64 + (8 * g + l))).
    split; [|split; reflexivity].
    unfold index. destruct (Z.ltb_spec (128 * c + 8 * g + l) 0); [lia|].
    replace (Z.to_nat (128 * c + 8 * g + l))
      with (Z.to_nat c * 128 + (Z.to_nat g * 8 + Z.to_nat l))%nat by lia.
    rewrite gen_leafs_nth by lia.
    rewrite !Z2Nat.id by lia. do 3 f_equal. lia.
  - apply gen_spines_Forall. intros. split; reflexivity.
  - apply gen_leafs_Forall. intros. split; reflexivity.
  - subst n. reflexivity.
  - subst n. reflexivity.
Qed.

Lemma layout_counts_witness :
  (0 <= 2)%Z /\ Z.of_nat (length (spines (layout (inject_Z 2) false))) = (64 * 2)%Z.
Proof.
  split; [lia|]. apply (layout_counts 2 false). lia.
Defined.

(** ** Node identities *)

Lemma number_from_ids (mks : list (Z -> NodeData)) :
  Forall keeps_id mks ->
  forall gid,
    NoDup (map id (number_from gid mks))
    /\ Forall (fun i => (gid <= i < gid + Z.of_nat (length mks))%Z)
              (map id (number_from gid mks)).
Proof.
  induction 1 as [|mk mks Hmk _ IH]; intro gid.
  - split; constructor.
  - destruct (IH (gid + 1)%Z) as [Hnd Hall].
    cbn [number_from map length]. rewrite Hmk. split.
    + constructor; [|exact Hnd].
      intro Hin. rewrite Forall_forall in Hall. apply Hall in Hin. lia.
    + constructor; [lia|].
      eapply Forall_impl; [|exact Hall]. cbn beta. intros; lia.
Qed.

Lemma all_ids_add_nodes (k : NodeType) (mks : list (Z -> NodeData)) (st : GenState) :
  Permutation (all_ids (add_nodes k mks st))
              (all_ids st ++ map id (number_from (globalIdCounter st) mks)).
Proof.
  unfold all_ids. rewrite <- map_app. apply Permutation_map.
  destruct st as [sp lf sv cnt], k; cbn.
  - rewrite <- !app_assoc. apply Permutation_app_head.
    rewrite (app_assoc lf). apply Permutation_app_comm.
  - rewrite <- !app_assoc. do 2 apply Permutation_app_head.
    apply Permutation_app_comm.
  - now rewrite <- !app_assoc.
Qed.

Lemma add_nodes_fresh (k : NodeType) (mks : list (Z -> NodeData)) (st : GenState) :
  Forall keeps_id mks -> ids_fresh st -> ids_fresh (add_nodes k mks st).
Proof.
  intros Hmks [Hnd Hlt].
  destruct (number_from_ids mks Hmks (globalIdCounter st)) as [Hnd' Hrng].
  assert (Hcnt : globalIdCounter (add_nodes k mks st)
                 = (globalIdCounter st + Z.of_nat (length mks))%Z)
    by (now destruct k).
  pose proof (all_ids_add_nodes k mks st) as Hperm. apply Permutation_sym in Hperm.
  rewrite Forall_forall in Hlt, Hrng. split.
  - eapply Permutation_NoDup; [exact Hperm|].
    apply NoDup_app; [exact Hnd|exact Hnd'|].
    intros a Ha Ha'. apply Hlt in Ha. apply Hrng in Ha'. lia.
  - eapply Permutation_Forall; [exact Hperm|].
    rewrite Hcnt. apply Forall_app. split; apply Forall_forall; intros a Ha.
    + apply Hlt in Ha. lia.
    + apply Hrng in Ha. lia.
Qed.

Lemma cluster_spines_keep (c : Z) : Forall keeps_id (cluster_spines c).
Proof.
  apply Forall_forall. intros mk Hmk. unfold cluster_spines in Hmk.
  apply in_map_iff in Hmk as (i & <- & _). intro gid. reflexivity.
Qed.

Lemma cluster_leafs_keep (c : Z) : Forall keeps_id (cluster_leafs c).
Proof.
  apply Forall_forall. intros mk Hmk. unfold cluster_leafs in Hmk.
  apply in_flat_map in Hmk as (g & _ & Hmk).
  apply in_map_iff in Hmk as (l & <- & _). intro gid. reflexivity.
Qed.

Lemma all_servers_keep (clusterCount : Q) : Forall keeps_id (all_servers clusterCount).
Proof.
  apply Forall_forall. intros mk Hmk. unfold all_servers in Hmk.
  apply in_flat_map in Hmk as (g & _ & Hmk).
  apply in_map_iff in Hmk as (s & <- & _). intro gid. reflexivity.
Qed.

Lemma generate_fresh (clusterCount : Q) (isServerMode : bool) :
  ids_fresh (generate clusterCount isServerMode).
Proof.
  unfold generate. cbv zeta.
  assert (Hclusters : ids_fresh (for_lt clusterCount cluster_body
                                   (mkGenState [] [] [] 0%Z))).
  { apply for_lt_invariant.
    - intros c st _ _ Hst. rewrite cluster_body_closed.
      apply add_nodes_fresh; [apply cluster_leafs_keep|].
      apply add_nodes_fresh; [apply cluster_spines_keep|exact Hst].
    - split; constructor. }
  destruct isServerMode; [|exact Hclusters].
  apply for_lt_invariant; [|exact Hclusters].
  intros g st _ _ Hst. rewrite server_body_closed.
  apply add_nodes_fresh; [|exact Hst].
  apply Forall_forall. intros mk Hmk.
  apply in_map_iff in Hmk as (s & <- & _). intro gid. reflexivity.
Qed.

(** ** Shape of the generated nodes *)

Lemma layout_shapes (clusterCount : Q) (isServerMode : bool) :
  let L := layout clusterCount isServerMode in
  Forall (spine_shape clusterCount) (spines L)
  /\ Forall (leaf_shape clusterCount) (leafs L)
  /\ Forall server_shape (servers L).
Proof.
  cbv zeta. rewrite layout_closed. cbn [spines leafs servers]. repeat split.
  - apply gen_spines_Forall. intros c i gid Hc _. repeat split.
    exists c. repeat split; [lia|]. apply lt_trip_count; lia.
  - apply gen_leafs_Forall. intros c g l gid Hc Hg _. repeat split.
    + exists c. repeat split; [lia|]. apply lt_trip_count; lia.
    + exists g. split; [reflexivity|lia].
  - destruct isServerMode; [|constructor].
    apply gen_servers_Forall. intros g s gid Hg _. repeat split.
    exists g. split; [reflexivity|lia].
Qed.

(** C9: in the topology of one generation pass the ids of all nodes of the
    three sequences are pairwise distinct; a spine has a [clusterId] and no
    [groupId]; a leaf has a [clusterId] in [[0, clusterCount)] and a
    [groupId] in [[0, 15]]; a server has a [groupId] and no [clusterId]. *)
Theorem layout_ids_and_shapes (clusterCount : Q) (isServerMode : bool) :
  let L := layout clusterCount isServerMode in
  NoDup (map id (spines L ++ leafs L ++ servers L))
  /\ Forall (spine_shape clusterCount) (spines L)
  /\ Forall (leaf_shape clusterCount) (leafs L)
  /\ Forall server_shape (servers L).
Proof.
  cbv zeta. split.
  - exact (proj1 (generate_fresh clusterCount isServerMode)).
  - apply layout_shapes.
Qed.

(** ** Servers *)

Lemma map_flat_map (A B C : Type) (f : B -> C) (g : A -> list B) (l : list A) :
  map f (flat_map g l) = flat_map (fun a => map f (g a)) l.
Proof. induction l; cbn; [reflexivity|now rewrite map_app, IHl]. Qed.

(** A view of the server sequence that does not look at the ids is a
    function of the group and the index within the group. *)
Lemma servers_project (B : Type) (f : NodeData -> B) (h : Z -> Z -> B)
  (clusterCount : Q) :
  (forall g s gid, f (new_server clusterCount g s gid) = h g s) ->
  map f (gen_servers clusterCount)
  = flat_map (fun g => map (h g) (range (Z.to_nat (serverCount g))))
             (range (Z.to_nat LEAF_GROUPS)).
Proof.
  intro Hf. unfold gen_servers.
  rewrite (number_from_map _ f (fun mk => f (mk 0%Z))).
  - unfold all_servers. rewrite map_flat_map. apply flat_map_ext. intro g.
    rewrite map_map. apply map_ext. intro s. apply Hf.
  - intros mk Hmk gid. unfold all_servers in Hmk.
    apply in_flat_map in Hmk as (g & _ & Hmk).
    apply in_map_iff in Hmk as (s & <- & _). now rewrite !Hf.
Qed.

Lemma in_group_length (g : Z) (nodes : list NodeData) :
  length (in_group g nodes)
  = length (filter (fun o => opt_eqb o (Some g)) (map groupId nodes)).
Proof. unfold in_group. now rewrite filter_map_swap, length_map. Qed.

Lemma group_depths_project (g : Z) (L : NetworkLayout) :
  group_depths g L
  = map snd (filter (fun p => opt_eqb (fst p) (Some g))
               (map (fun s => (groupId s, z (position s))) (servers L))).
Proof.
  unfold group_depths, in_group. now rewrite filter_map_swap, map_map.
Qed.

(** C7: with servers on, whatever the cluster count, there are
    [15 * 64 + 56 = 1016] servers; groups 0 to 14 have 64 of them and group
    15 has 56; with servers off the sequence is empty. *)
Theorem servers_count (clusterCount : Q) :
  length (servers (layout clusterCount true)) = 1016%nat
  /\ (15 * 64 + 56 = 1016)%nat
  /\ map (fun g => length (in_group g (servers (layout clusterCount true))))
         (range 16)
     = (repeat 64 15 ++ [56])%nat
  /\ servers (layout clusterCount false) = [].
Proof.
  rewrite !layout_closed. cbn [servers].
  assert (Hg : map groupId (gen_servers clusterCount)
               = flat_map (fun g => map (fun _ => Some g)
                                        (range (Z.to_nat (serverCount g))))
                          (range (Z.to_nat LEAF_GROUPS)))
    by (apply servers_project; reflexivity).
  split; [|split; [reflexivity|split; [|reflexivity]]].
  - rewrite <- (length_map groupId), Hg. vm_compute. reflexivity.
  - erewrite map_ext by (intro g; apply in_group_length).
    rewrite Hg. vm_compute. reflexivity.
Qed.

(** ** Depth of the servers *)

Lemma forallb_pointwise (A : Type) (f g : A -> bool) (l : list A) :
  (forall a, f a = g a) -> forallb f l = forallb g l.
Proof. intro H. induction l; cbn; [reflexivity|now rewrite H, IHl]. Qed.

Lemma group_depths_closed (g : Z) (clusterCount : Q) :
  group_depths g (layout clusterCount true)
  = map snd (filter (fun p => opt_eqb (fst p) (Some g)) (server_view clusterCount)).
Proof.
  rewrite group_depths_project, layout_closed. cbn [servers].
  now rewrite (servers_project _ _
                 (fun g s => (Some g, baseZ clusterCount + server_zOffset g s))).
Qed.

(** C2, as the code has it: with servers on, for every cluster count, the
    servers of each of the 16 groups are [SERVER_SPACING] apart along the
    depth axis and symmetric around a base depth that is the midpoint
    between depth 0 and the offset of the cluster of index 1 (that is,
    [-CLUSTER_SPACING_Z / 2 = -30]) when [clusterCount > 1], and around 0
    otherwise. *)
Theorem server_depths_symmetric (clusterCount : Q) :
  let L := layout clusterCount true in
  let base := if Qltb 1 clusterCount then (0 + clusterZOffset 1) / 2 else 0 in
  forallb (fun g => symmetric_around base (group_depths g L)
                    && evenly_spaced SERVER_SPACING (group_depths g L)
                    && (Z.of_nat (length (group_depths g L)) =? serverCount g)%Z)
          (range 16) = true
  /\ (if Qltb 1 clusterCount then base == -30 else base == 0).
Proof.
  cbv zeta. split.
  - erewrite forallb_pointwise
      by (intro g; rewrite group_depths_closed; reflexivity).
    unfold server_view, baseZ. destruct (Qltb 1 clusterCount); vm_compute; reflexivity.
  - destruct (Qltb 1 clusterCount); reflexivity.
Qed.

(** C2 fails as stated: with three clusters the last cluster is at depth
    -120, the stated base depth is -60, and the servers of group 0 run from
    -61.5 to 1.5, symmetric around -30. *)
Lemma server_depths_not_last_cluster :
  let zs := group_depths 0 (layout 3 true) in
  spec_baseZ 3 == -60
  /\ symmetric_around (spec_baseZ 3) zs = false
  /\ symmetric_around (-30) zs = true
  /\ hd 0 zs == -123 # 2 /\ last zs 0 == 3 # 2.
Proof. vm_compute. repeat split. Qed.

(** ** Connection builders *)

Lemma opt_eqb_eq (a b : option Z) : opt_eqb a b = true <-> a = b.
Proof.
  destruct a as [m|], b as [n|]; cbn; try (split; congruence).
  rewrite Z.eqb_eq. split; congruence.
Qed.

Lemma push3_push3 (p q : Vector3) (points : list Q) :
  push3 q (push3 p points) = (points ++ segment_points p q)%list.
Proof. unfold push3, segment_points. now rewrite <- app_assoc. Qed.

(** A [forEach] whose body appends to the buffer appends in order. *)
Lemma forEach_append (A : Type) (xs : list A) (body : A -> list Q -> list Q)
  (F : A -> list Q) :
  (forall a points, body a points = (points ++ F a)%list) ->
  forall points, forEach xs body points = (points ++ flat_map F xs)%list.
Proof.
  intro Hbody. unfold forEach. induction xs as [|a xs IH]; intro points; cbn.
  - now rewrite app_nil_r.
  - now rewrite IH, Hbody, <- app_assoc.
Qed.

Lemma forEach_if_append (A : Type) (xs : list A) (test : A -> bool)
  (body : A -> list Q -> list Q) (F : A -> list Q) :
  (forall a points,
     body a points = if test a then (points ++ F a)%list else points) ->
  forall points,
    forEach xs body points = (points ++ flat_map F (filter test xs))%list.
Proof.
  intros Hbody points.
  rewrite (forEach_append _ _ _ (fun a => if test a then F a else [])).
  - f_equal. induction xs as [|a xs IH]; cbn; [reflexivity|].
    rewrite IH. now destruct (test a).
  - intros a pts. rewrite Hbody. destruct (test a); [reflexivity|].
    now rewrite app_nil_r.
Qed.

Lemma filter_list_prod (A B : Type) (test : A * B -> bool) (F : A * B -> list Q)
  (l : list A) (l' : list B) :
  flat_map (fun a => flat_map (fun b => F (a, b))
                              (filter (fun b => test (a, b)) l')) l
  = flat_map F (filter test (list_prod l l')).
Proof.
  induction l as [|a l IH]; cbn [flat_map list_prod]; [reflexivity|].
  rewrite filter_app, flat_map_app, IH. f_equal.
  clear IH. induction l' as [|b l' IH]; cbn; [reflexivity|].
  destruct (test (a, b)); cbn; now rewrite IH.
Qed.

Lemma lineSegments_segments (prs : list (NodeData * NodeData)) :
  lineSegments
    (flat_map (fun pr => segment_points (position (fst pr)) (position (snd pr))) prs)
  = map endpoints prs.
Proof.
  induction prs as [|[a b] prs IH]; [reflexivity|].
  cbn [flat_map map]. unfold segment_points at 1.
  cbn [app lineSegments fst snd]. rewrite IH. unfold endpoints. cbn [fst snd].
  now destruct (position a), (position b).
Qed.

(** The buffer of the static mesh, pair by pair. *)
Lemma staticGeo_closed (L : NetworkLayout) :
  staticGeo L
  = flat_map (fun pr => segment_points (position (fst pr)) (position (snd pr)))
             (spine_leaf_pairs L ++ server_leaf_pairs L).
Proof.
  unfold staticGeo. cbv zeta.
  assert (Hsp : forEach (spines L) (fun spine =>
                  forEach (leafs L) (fun leaf points =>
                    if opt_eqb (clusterId spine) (clusterId leaf)
                    then push3 (position leaf) (push3 (position spine) points)
                    else points)) []
                = flat_map (fun pr => segment_points (position (fst pr))
                                                     (position (snd pr)))
                           (spine_leaf_pairs L)).
  { rewrite (forEach_append _ _ _ (fun spine =>
               flat_map (fun leaf => segment_points (position spine) (position leaf))
                 (filter (fun leaf => opt_eqb (clusterId spine) (clusterId leaf))
                         (leafs L)))).
    - cbn [app]. unfold spine_leaf_pairs.
      now rewrite <- (filter_list_prod _ _
                        (fun pr => opt_eqb (clusterId (fst pr)) (clusterId (snd pr)))).
    - intros spine points. apply forEach_if_append.
      intros leaf pts. now rewrite push3_push3. }
  assert (Hsv : forall points,
            forEach (servers L) (fun sv =>
              forEach (leafs L) (fun leaf points =>
                if opt_eqb (groupId leaf) (groupId sv)
                then push3 (position leaf) (push3 (position sv) points)
                else points)) points
            = (points ++ flat_map (fun pr => segment_points (position (fst pr))
                                                            (position (snd pr)))
                                  (server_leaf_pairs L))%list).
  { intro points.
    rewrite (forEach_append _ _ _ (fun sv =>
               flat_map (fun leaf => segment_points (position sv) (position leaf))
                 (filter (fun leaf => opt_eqb (groupId leaf) (groupId sv))
                         (leafs L)))).
    - unfold server_leaf_pairs.
      now rewrite <- (filter_list_prod _ _
                        (fun pr => opt_eqb (groupId (snd pr)) (groupId (fst pr)))).
    - intros sv pts. apply forEach_if_append.
      intros leaf pts'. now rewrite push3_push3. }
  rewrite Hsp, flat_map_app.
  destruct (0 <? length (servers L))%nat eqn:E; [apply Hsv|].
  apply Nat.ltb_ge in E. unfold server_leaf_pairs.
  destruct (servers L); [|cbn in E; lia].
  cbn. now rewrite app_nil_r.
Qed.

Lemma NoDup_list_prod (A B : Type) (l : list A) (l' : list B) :
  NoDup l -> NoDup l' -> NoDup (list_prod l l').
Proof.
  intros Hl Hl'. induction Hl as [|a l Ha _ IH]; cbn [list_prod]; [constructor|].
  apply NoDup_app; [|exact IH|].
  - clear - Hl'. induction Hl' as [|b l' Hb _ IH]; cbn; constructor; [|exact IH].
    intro Hin. apply in_map_iff in Hin as (b' & [= <-] & Hin). now apply Hb.
  - intros [a' b'] Hin Hin'. apply in_map_iff in Hin as (b'' & [= <- <-] & _).
    apply in_prod_iff in Hin' as [Hin' _]. now apply Ha.
Qed.

Lemma layout_NoDup (clusterCount : Q) (isServerMode : bool) :
  let L := layout clusterCount isServerMode in
  NoDup (spines L) /\ NoDup (leafs L) /\ NoDup (servers L).
Proof.
  pose proof (proj1 (generate_fresh clusterCount isServerMode)) as H.
  unfold all_ids in H. apply NoDup_map_inv in H.
  cbv zeta. unfold layout. cbn [spines leafs servers]. repeat split.
  - now apply NoDup_app_remove_r in H.
  - now apply NoDup_app_remove_l, NoDup_app_remove_r in H.
  - now apply NoDup_app_remove_l, NoDup_app_remove_l in H.
Qed.

(** C1: on every generated topology the segments of the static mesh are,
    in order, one per (spine, leaf) pair with equal cluster id followed by
    one per (server, leaf) pair with equal group id; no pair occurs twice;
    the two ends of a spine-leaf segment are in one cluster and the two
    ends of a server-leaf segment in one group; one cluster without servers
    gives [64 * 128 = 8192] segments. *)
Theorem full_mesh_segments (clusterCount : Q) (isServerMode : bool) :
  let L := layout clusterCount isServerMode in
  lineSegments (staticGeo L) = map endpoints (spine_leaf_pairs L ++ server_leaf_pairs L)
  /\ NoDup (spine_leaf_pairs L) /\ NoDup (server_leaf_pairs L)
  /\ Forall (fun pr => exists c, clusterId (fst pr) = Some c
                                 /\ clusterId (snd pr) = Some c)
            (spine_leaf_pairs L)
  /\ Forall (fun pr => exists g, groupId (fst pr) = Some g
                                 /\ groupId (snd pr) = Some g)
            (server_leaf_pairs L)
  /\ Z.of_nat (length (lineSegments (staticGeo (layout 1 false)))) = 8192%Z
  /\ (64 * 128 = 8192)%Z.
Proof.
  cbv zeta.
  destruct (layout_NoDup clusterCount isServerMode) as (Hsp & Hlf & Hsv).
  destruct (layout_shapes clusterCount isServerMode) as (Ssp & _ & Ssv).
  split; [|split; [|split; [|split; [|split; [|split]]]]].
  - now rewrite staticGeo_closed, lineSegments_segments.
  - apply NoDup_filter, NoDup_list_prod; assumption.
  - apply NoDup_filter, NoDup_list_prod; assumption.
  - apply Forall_forall. intros [a b] Hin. apply filter_In in Hin as [Hin Heq].
    apply in_prod_iff in Hin as [Ha _]. cbn [fst snd] in *.
    rewrite Forall_forall in Ssp. destruct (Ssp a Ha) as (_ & (c & Hc & _) & _).
    exists c. split; [exact Hc|]. apply opt_eqb_eq in Heq. congruence.
  - apply Forall_forall. intros [a b] Hin. apply filter_In in Hin as [Hin Heq].
    apply in_prod_iff in Hin as [Ha _]. cbn [fst snd] in *.
    rewrite Forall_forall in Ssv. destruct (Ssv a Ha) as (_ & _ & (g & Hg & _)).
    exists g. split; [exact Hg|]. apply opt_eqb_eq in Heq. congruence.
  - rewrite staticGeo_closed, lineSegments_segments, length_map.
    vm_compute. reflexivity.
  - reflexivity.
Qed.

(** ** Highlight builder *)

Lemma addLine_append (n1 n2 : NodeData) (points : list Q) :
  addLine n1 n2 points
  = (points ++ segment_points (position n1) (position n2))%list.
Proof. unfold addLine. apply push3_push3. Qed.

Lemma lineSegments_from (h : NodeData) (targets : list NodeData) :
  lineSegments
    (flat_map (fun n => segment_points (position h) (position n)) targets)
  = map (fun n => (position h, position n)) targets.
Proof.
  induction targets as [|n targets IH]; [reflexivity|].
  cbn [flat_map map]. unfold segment_points at 1.
  cbn [app lineSegments]. rewrite IH.
  now destruct (position h), (position n).
Qed.

(** The buffer of the highlight, target by target. *)
Lemma activeGeo_closed (L : NetworkLayout) (h : NodeData) :
  activeGeo L (Some h)
  = Some (flat_map (fun n => segment_points (position h) (position n))
                   (highlight_targets L h)).
Proof.
  unfold activeGeo, highlight_targets, same_cluster, same_group. cbv zeta.
  f_equal. destruct (type h).
  - rewrite (forEach_if_append _ _
               (fun n => opt_eqb (clusterId n) (clusterId h)) _
               (fun n => segment_points (position h) (position n)));
      [reflexivity|].
    intros n pts. now rewrite addLine_append.
  - rewrite (forEach_if_append _ (spines L)
               (fun n => opt_eqb (clusterId n) (clusterId h)) _
               (fun n => segment_points (position h) (position n)))
      by (intros n pts; now rewrite addLine_append).
    rewrite (forEach_if_append _ (servers L)
               (fun n => opt_eqb (groupId n) (groupId h)) _
               (fun n => segment_points (position h) (position n)))
      by (intros n pts; now rewrite addLine_append).
    cbn [app]. now rewrite flat_map_app.
  - rewrite (forEach_if_append _ _
               (fun n => opt_eqb (groupId n) (groupId h)) _
               (fun n => segment_points (position h) (position n)));
      [reflexivity|].
    intros n pts. now rewrite addLine_append.
Qed.

(** C8: without a focused node the highlight is empty ([null]); with one
    it has one segment, from the focused node, per leaf of its cluster (a
    spine), per spine of its cluster and then per server of its group (a
    leaf), per leaf of its group (a server); a spine of a one-cluster
    topology gets exactly 128 segments. *)
Theorem highlight_segments (L : NetworkLayout) (h : NodeData) (isServerMode : bool) :
  activeGeo L None = None
  /\ option_map lineSegments (activeGeo L (Some h))
     = Some (map (fun n => (position h, position n))
                 match type h with
                 | spine => same_cluster h (leafs L)
                 | leaf => same_cluster h (spines L) ++ same_group h (servers L)
                 | server => same_group h (leafs L)
                 end)
  /\ Forall (fun sp =>
               option_map (fun pts => length (lineSegments pts))
                          (activeGeo (layout 1 isServerMode) (Some sp))
               = Some 128%nat)
            (spines (layout 1 isServerMode)).
Proof.
  split; [reflexivity|split].
  - rewrite activeGeo_closed. cbn [option_map].
    now rewrite lineSegments_from.
  - rewrite layout_closed. cbn [spines].
    apply gen_spines_Forall. intros c i gid Hc _.
    rewrite activeGeo_closed. cbn [option_map].
    rewrite lineSegments_from, length_map. f_equal.
    assert (c = 0%Z) as -> by (change (trip_count 1) with 1%nat in Hc; lia).
    unfold highlight_targets, same_cluster. cbn [type new_spine leafs clusterId].
    vm_compute. reflexivity.
Qed.

(** C3, as the code has it: the highlight builder never looks the focused
    node up in the topology.  It completes normally, returns [null] only
    for a [null] focus, and for any focused node, present or stale, draws
    one segment from that node's own position to every current node
    matching its cluster or group id by the rules of its type; the id and
    the label of the focused node do not matter. *)
Theorem highlight_ignores_presence (L : NetworkLayout) (h : NodeData)
  (gid : Z) (lbl : string) :
  activeGeo_completion L None = Normal None
  /\ activeGeo_completion L (Some h)
     = Normal (Some (flat_map (fun n => segment_points (position h) (position n))
                              (highlight_targets L h)))
  /\ activeGeo L (Some (mkNodeData gid (clusterId h) (type h) (position h)
                                    (groupId h) lbl))
     = activeGeo L (Some h).
Proof.
  split; [reflexivity|split].
  - unfold activeGeo_completion. now rewrite activeGeo_closed.
  - now rewrite !activeGeo_closed.
Qed.

(** C3 fails as stated: a server focused while servers were shown is not
    in the topology regenerated with servers hidden (no node has its id and
    type), yet the builder draws the 8 segments to the leafs of its group
    where re-resolution would clear the focus. *)
Lemma highlight_stale_focus :
  let current := layout 1 false in
  exists stale,
    nth_error (servers (layout 1 true)) 0 = Some stale
    /\ spec_resolve current stale = None
    /\ spec_activeGeo current (Some stale) = None
    /\ option_map (fun pts => length (lineSegments pts))
                  (activeGeo current (Some stale)) = Some 8%nat.
Proof.
  cbv zeta.
  destruct (nth_error (servers (layout 1 true)) 0) as [stale|] eqn:E;
    [|vm_compute in E; discriminate].
  exists stale. split; [reflexivity|].
  vm_compute in E. injection E as <-.
  vm_compute. repeat split.
Qed.

(** ** Cluster counts outside the positive integers *)

(** C4, as the code has it: the generator validates nothing.  For every
    rational cluster count it completes normally with the clusters
    [0 .. ceil(clusterCount) - 1]: none for a count that is negative or
    zero, the count rounded up for a fractional one. *)
Theorem layout_never_rejects (clusterCount : Q) (isServerMode : bool) :
  let L := layout clusterCount isServerMode in
  layout_completion clusterCount isServerMode = Normal L
  /\ length (spines L) = (Z.to_nat (Qceiling clusterCount) * 64)%nat
  /\ length (leafs L) = (Z.to_nat (Qceiling clusterCount) * 128)%nat
  /\ (if Qle_bool clusterCount 0 then spines L = [] /\ leafs L = [] else True).
Proof.
  cbv zeta. split; [reflexivity|].
  rewrite layout_closed. cbn [spines leafs].
  rewrite gen_spines_length, gen_leafs_length.
  split; [reflexivity|split; [reflexivity|]].
  destruct (Qle_bool clusterCount 0) eqn:E; [|exact I].
  apply Qle_bool_iff in E.
  assert (H0 : trip_count clusterCount = 0%nat).
  { unfold trip_count.
    assert (Qceiling clusterCount <= 0)%Z; [|lia].
    change 0%Z with (Qceiling 0). now apply Qceiling_resp_le. }
  rewrite H0. split; reflexivity.
Qed.

(** C4 fails as stated: a negative count yields the empty topology and a
    fractional count yields two clusters; neither is rejected. *)
Lemma layout_accepts_invalid_counts :
  layout_completion (-1) false = Normal (mkNetworkLayout [] [] [])
  /\ (exists L, layout_completion (3 # 2) false = Normal L
                /\ length (spines L) = 128%nat /\ length (leafs L) = 256%nat).
Proof.
  split; [reflexivity|].
  eexists. split; [reflexivity|]. vm_compute. split; reflexivity.
Qed.

(** ** Escape routes *)

Lemma lineSegments_flat_map (A : Type) (P R : A -> Vector3) (l : list A) :
  lineSegments (flat_map (fun a => segment_points (P a) (R a)) l)
  = map (fun a => (P a, R a)) l.
Proof.
  induction l as [|a l IH]; [reflexivity|].
  cbn [flat_map map]. unfold segment_points at 1.
  cbn [app lineSegments]. rewrite IH.
  now destruct (P a), (R a).
Qed.

Lemma flat_map_flat_map (A B C : Type) (f : B -> list C) (g : A -> list B)
  (l : list A) :
  flat_map f (flat_map g l) = flat_map (fun a => flat_map f (g a)) l.
Proof. induction l; cbn; [reflexivity|now rewrite flat_map_app, IHl]. Qed.

Lemma flat_map_map (A B C : Type) (f : B -> list C) (g : A -> B) (l : list A) :
  flat_map f (map g l) = flat_map (fun a => f (g a)) l.
Proof. induction l; cbn; [reflexivity|now rewrite IHl]. Qed.

Lemma flat_map_ext_in (A B : Type) (f g : A -> list B) (l : list A) :
  (forall a, In a l -> f a = g a) -> flat_map f l = flat_map g l.
Proof.
  induction l as [|a l IH]; intro H; [reflexivity|].
  cbn. rewrite (H a (or_introl eq_refl)), IH; [reflexivity|].
  intros a' Ha'. apply H. now right.
Qed.

(** A counting loop whose body appends without throwing appends in order
    without throwing. *)
Lemma for_ltM_append (bound : Q) (body : Z -> list Q -> Completion (list Q))
  (F : Z -> list Q) :
  (forall c points, In c (range (trip_count bound)) ->
                    body c points = Normal (points ++ F c)%list) ->
  forall points,
    for_ltM bound body points
    = Normal (points ++ flat_map F (range (trip_count bound)))%list.
Proof.
  unfold for_ltM. induction (range (trip_count bound)) as [|c l IH];
    intros Hbody points; cbn [fold_left flat_map].
  - now rewrite app_nil_r.
  - cbn [bind]. rewrite (Hbody c points (or_introl eq_refl)), IH.
    + now rewrite <- app_assoc.
    + intros c' pts Hc'. apply Hbody. now right.
Qed.

Lemma trip_count_pred (a : Z) : trip_count (inject_Z a - 1) = Z.to_nat (a - 1).
Proof.
  unfold trip_count. f_equal. rewrite <- (Qceiling_Z (a - 1)).
  apply Qceiling_comp.
  change (inject_Z a - 1) with (inject_Z a + - inject_Z 1).
  now rewrite <- inject_Z_opp, <- inject_Z_plus.
Qed.

Lemma index_nth (A : Type) (xs : list A) (k : Z) (d : A) :
  (0 <= k < Z.of_nat (length xs))%Z -> index xs k = Some (nth (Z.to_nat k) xs d).
Proof.
  intro Hk. unfold index. destruct (Z.ltb_spec k 0); [lia|].
  apply nth_error_nth'. lia.
Qed.

Lemma index_None (A : Type) (xs : list A) (k : Z) :
  (Z.of_nat (length xs) <= k)%Z -> index xs k = None.
Proof.
  intro Hk. unfold index. destruct (Z.ltb_spec k 0); [reflexivity|].
  apply nth_error_None. lia.
Qed.

(** The sub-segment loop never reads outside the samples. *)
Lemma push_curve_closed (curvePoints : list Vector3) (points : list Q) :
  push_curve curvePoints points
  = Normal (points ++ flat_map (fun sg => segment_points (fst sg) (snd sg))
                               (curve_segments curvePoints))%list.
Proof.
  unfold push_curve.
  rewrite (for_ltM_append _ _
             (fun k => segment_points (nth (Z.to_nat k) curvePoints origin)
                                      (nth (Z.to_nat (k + 1)) curvePoints origin))).
  - rewrite trip_count_pred. do 2 f_equal. unfold curve_segments, range.
    rewrite !flat_map_map.
    replace (Z.to_nat (Z.of_nat (length curvePoints) - 1))
      with (length curvePoints - 1)%nat by lia.
    apply flat_map_ext. intro k. cbn [fst snd].
    rewrite Nat2Z.id. now replace (Z.to_nat (Z.of_nat k + 1)) with (S k) by lia.
  - intros k pts Hk. rewrite trip_count_pred in Hk. apply in_range in Hk.
    rewrite (index_nth _ _ k origin), (index_nth _ _ (k + 1) origin) by lia.
    cbn [deref bind]. now rewrite push3_push3.
Qed.

Lemma escape_curve_length (leafA leafB : NodeData) :
  length (curve_segments (escape_curve leafA leafB)) = 20%nat.
Proof.
  unfold curve_segments, escape_curve, getPoints. cbv zeta.
  now rewrite length_map, length_seq, length_map, range_length.
Qed.

Lemma EscapeConnections_closed (L : NetworkLayout) (active : bool) (clusterCount : Q) :
  EscapeConnections L active clusterCount
  = Normal (if negb active || Qltb clusterCount 2 then None
            else if (length (escape_buffer L clusterCount) =? 0)%nat then None
                 else Some (escape_buffer L clusterCount)).
Proof.
  unfold EscapeConnections.
  destruct (negb active || Qltb clusterCount 2); [reflexivity|].
  pose (Fi := fun c i =>
    match index (leafs L) (c * LEAFS_PER_CLUSTER + LAST_GROUP_OFFSET + i),
          index (leafs L) ((c + 1) * LEAFS_PER_CLUSTER + LAST_GROUP_OFFSET + i)
    with
    | Some leafA, Some leafB =>
        flat_map (fun sg => segment_points (fst sg) (snd sg))
                 (curve_segments (escape_curve leafA leafB))
    | _, _ => []
    end).
  rewrite (for_ltM_append _ _
             (fun c => flat_map (Fi c) (range (Z.to_nat LEAFS_PER_GROUP)))).
  - cbn [bind app].
    assert (Hbuf : flat_map (fun c => flat_map (Fi c) (range (Z.to_nat LEAFS_PER_GROUP)))
                            (range (trip_count (clusterCount - 1)))
                   = escape_buffer L clusterCount).
    { unfold escape_buffer, escape_segments, escape_pairs.
      rewrite !flat_map_flat_map. apply flat_map_ext. intro c.
      rewrite !flat_map_flat_map. apply flat_map_ext. intro i. unfold Fi.
      destruct (index (leafs L) (c * LEAFS_PER_CLUSTER + LAST_GROUP_OFFSET + i));
        [|reflexivity].
      destruct (index (leafs L) ((c + 1) * LEAFS_PER_CLUSTER + LAST_GROUP_OFFSET + i));
        [|reflexivity].
      cbn [flat_map fst snd]. now rewrite !app_nil_r. }
    rewrite Hbuf. now destruct (length (escape_buffer L clusterCount) =? 0)%nat.
  - intros c points _. cbv zeta.
    rewrite (for_ltM_append _ _ (Fi c)).
    + now rewrite trip_count_inject_Z.
    + intros i pts _. unfold Fi.
      destruct (index (leafs L) (c * LEAFS_PER_CLUSTER + LAST_GROUP_OFFSET + i));
        [|now rewrite app_nil_r].
      destruct (index (leafs L) ((c + 1) * LEAFS_PER_CLUSTER + LAST_GROUP_OFFSET + i));
        [|now rewrite app_nil_r].
      apply push_curve_closed.
Qed.

Lemma escape_buffer_segments (L : NetworkLayout) (clusterCount : Q) :
  lineSegments (escape_buffer L clusterCount) = escape_segments L clusterCount.
Proof.
  unfold escape_buffer. rewrite lineSegments_flat_map.
  rewrite <- (map_id (escape_segments L clusterCount)) at 2.
  apply map_ext. now intros [p q].
Qed.

Lemma escape_segments_length (L : NetworkLayout) (clusterCount : Q) :
  length (escape_segments L clusterCount)
  = (length (escape_pairs L clusterCount) * 20)%nat.
Proof.
  unfold escape_segments. apply flat_map_constant_length.
  intros pr _. apply escape_curve_length.
Qed.

Lemma flat_map_nil_in (A B : Type) (f : A -> list B) (l : list A) :
  (forall a, In a l -> f a = []) -> flat_map f l = [].
Proof.
  induction l as [|a l IH]; intro H; [reflexivity|].
  cbn. rewrite (H a (or_introl eq_refl)), IH; [reflexivity|].
  intros a' Ha'. apply H. now right.
Qed.

Lemma escape_buffer_nil (L : NetworkLayout) (clusterCount : Q) :
  escape_pairs L clusterCount = [] -> escape_buffer L clusterCount = [].
Proof. intro H. unfold escape_buffer, escape_segments. now rewrite H. Qed.

Lemma QuadraticBezier_start (t p0 p1 p2 : Q) :
  t == 0 -> QuadraticBezier t p0 p1 p2 == p0.
Proof. intro H. unfold QuadraticBezier. rewrite H. ring. Qed.

Lemma QuadraticBezier_end (t p0 p1 p2 : Q) :
  t == 1 -> QuadraticBezier t p0 p1 p2 == p2.
Proof. intro H. unfold QuadraticBezier. rewrite H. ring. Qed.

Lemma getPoints_nth (v0 v1 v2 : Vector3) (k : nat) :
  (k <= 20)%nat ->
  nth k (getPoints v0 v1 v2 20) origin
  = getPoint v0 v1 v2 (inject_Z (Z.of_nat k) / inject_Z 20).
Proof.
  intro Hk. apply nth_error_nth. unfold getPoints.
  rewrite nth_error_map, nth_error_range by (cbn; lia). reflexivity.
Qed.

Lemma consecutive_chained (curvePoints : list Vector3) (m a : nat) :
  chained (map (fun k => (nth k curvePoints origin, nth (S k) curvePoints origin))
               (seq a m)).
Proof.
  revert a. induction m as [|m IH]; intro a; [exact I|].
  destruct m as [|m]; [exact I|].
  specialize (IH (S a)). cbn [seq map] in *. cbn [chained]. split; [reflexivity|].
  exact IH.
Qed.

Lemma curve_segments_chained (curvePoints : list Vector3) :
  chained (curve_segments curvePoints).
Proof. apply consecutive_chained. Qed.

(** The sampled curve of a pair is an escape route between its leafs. *)
Lemma escape_curve_joins (leafA leafB : NodeData) :
  joins leafA leafB (curve_segments (escape_curve leafA leafB)).
Proof.
  unfold joins. split; [apply escape_curve_length|].
  assert (Hlen : (length (escape_curve leafA leafB) - 1 = 20)%nat).
  { unfold escape_curve, getPoints. cbv zeta.
    now rewrite length_map, range_length. }
  split; [|split; [|apply curve_segments_chained]].
  - unfold curve_segments. rewrite Hlen, nth_error_map, nth_error_seq_lt by lia.
    cbn [option_map]. do 2 eexists. split; [reflexivity|].
    unfold escape_curve. cbv zeta. rewrite getPoints_nth by lia.
    unfold Veq, getPoint. cbn [x y z].
    repeat split; now apply QuadraticBezier_start.
  - unfold curve_segments. rewrite Hlen, nth_error_map, nth_error_seq_lt by lia.
    cbn [option_map]. do 2 eexists. split; [reflexivity|].
    unfold escape_curve. cbv zeta. rewrite getPoints_nth by lia.
    unfold Veq, getPoint. cbn [x y z].
    repeat split; now apply QuadraticBezier_end.
Qed.

(** The segments of the escape routes are, pair by pair, an escape route
    between the two leafs of the pair. *)
Lemma escape_segments_joined (L : NetworkLayout) (clusterCount : Q) :
  exists curves,
    escape_segments L clusterCount = concat curves
    /\ Forall2 (fun pr sgs => joins (fst pr) (snd pr) sgs)
               (escape_pairs L clusterCount) curves.
Proof.
  exists (map (fun pr => curve_segments (escape_curve (fst pr) (snd pr)))
              (escape_pairs L clusterCount)).
  split; [apply flat_map_concat_map|].
  induction (escape_pairs L clusterCount) as [|pr prs IH]; cbn [map];
    constructor; [apply escape_curve_joins|exact IH].
Qed.

(** With two generated clusters the pairs are the eight leafs of group 15
    of cluster 0, each with the leaf of the same index of group 15 of
    cluster 1. *)
Lemma escape_pairs_two (isServerMode : bool) :
  escape_pairs (layout 2 isServerMode) 2
  = map (fun i => (new_leaf 0 15 i (184 + i), new_leaf 1 15 i (376 + i))) (range 8).
Proof. destruct isServerMode; vm_compute; reflexivity. Qed.

(** C5: the escape builder returns nothing ([null]) when it is not enabled
    or the cluster count is below 2.  Enabled on two generated clusters it
    connects exactly 8 leaf pairs: leaf [i] of group 15 of cluster 0, found
    at index [0 * 128 + 15 * 8 + i], with leaf [i] of group 15 of cluster
    1, found at index [1 * 128 + 15 * 8 + i]; every pair becomes 20 (at
    least 16) straight sub-segments, 160 (at least 128) in all; and the
    segments returned are, pair after pair, a connected run of 20 that
    starts at the position of the leaf of cluster 0 and ends at the
    position of the leaf of cluster 1. *)
Theorem escape_routes (L : NetworkLayout) (active : bool) (clusterCount : Q)
  (isServerMode : bool) :
  (active = false \/ clusterCount < 2 ->
   EscapeConnections L active clusterCount = Normal None)
  /\ let L2 := layout 2 isServerMode in
     escape_pairs L2 2
     = map (fun i => (new_leaf 0 15 i (184 + i), new_leaf 1 15 i (376 + i)))
           (range 8)
     /\ map (fun i => (index (leafs L2) (0 * 128 + 15 * 8 + i),
                       index (leafs L2) (1 * 128 + 15 * 8 + i))) (range 8)
        = map (fun i => (Some (new_leaf 0 15 i (184 + i)),
                         Some (new_leaf 1 15 i (376 + i)))) (range 8)
     /\ exists points,
          EscapeConnections L2 true 2 = Normal (Some points)
          /\ lineSegments points
             = flat_map (fun pr => curve_segments (escape_curve (fst pr) (snd pr)))
                        (escape_pairs L2 2)
          /\ Forall (fun pr => length (curve_segments
                                         (escape_curve (fst pr) (snd pr))) = 20%nat)
                    (escape_pairs L2 2)
          /\ length (lineSegments points) = 160%nat
          /\ (16 <= 20)%nat /\ (128 <= 160)%nat
          /\ exists curves,
               lineSegments points = concat curves
               /\ Forall2 (fun pr sgs => joins (fst pr) (snd pr) sgs)
                    (map (fun i => (new_leaf 0 15 i (184 + i),
                                    new_leaf 1 15 i (376 + i))) (range 8))
                    curves.
Proof.
  split.
  - intros H. rewrite EscapeConnections_closed.
    assert (Hc : negb active || Qltb clusterCount 2 = true).
    { destruct H as [-> | Hlt]; [reflexivity|].
      apply Qltb_true in Hlt. rewrite Hlt. apply orb_true_r. }
    now rewrite Hc.
  - cbv zeta. split; [apply escape_pairs_two|split].
    + destruct isServerMode; vm_compute; reflexivity.
    + exists (escape_buffer (layout 2 isServerMode) 2).
      assert (Hlen : length (escape_segments (layout 2 isServerMode) 2) = 160%nat).
      { rewrite escape_segments_length, escape_pairs_two.
        now rewrite length_map, range_length. }
      split; [|split; [|split; [|split; [|split; [|split]]]]].
      * rewrite EscapeConnections_closed.
        change (negb true || Qltb 2 2) with false. cbv iota.
        destruct (escape_buffer (layout 2 isServerMode) 2) eqn:E; [|reflexivity].
        rewrite <- escape_buffer_segments, E in Hlen. discriminate.
      * apply escape_buffer_segments.
      * apply Forall_forall. intros pr _. apply escape_curve_length.
      * now rewrite escape_buffer_segments.
      * lia.
      * lia.
      * rewrite escape_buffer_segments, <- (escape_pairs_two isServerMode).
        apply escape_segments_joined.
Qed.

Lemma escape_routes_witness :
  (1 : Q) < 2 /\ EscapeConnections (layout 1 false) true 1 = Normal None.
Proof.
  split; [reflexivity|].
  apply (proj1 (escape_routes (layout 1 false) true 1 false)).
  right. reflexivity.
Defined.

(** C10: on any topology, with any flag and any rational cluster count,
    the escape builder completes normally.  Its segments are the curves of
    the pairs [(c, i)] for which both looked-up leafs exist; a pair with a
    missing leaf contributes nothing; when the leaf sequence is too short
    for any second leaf (at most 248 leafs) the result is [null]. *)
Theorem escape_total (L : NetworkLayout) (active : bool) (clusterCount : Q) :
  (exists r,
     EscapeConnections L active clusterCount = Normal r
     /\ option_map lineSegments r
        = if negb active || Qltb clusterCount 2 then None
          else match escape_segments L clusterCount with
               | [] => None
               | sgs => Some sgs
               end)
  /\ (forall a b,
        In (a, b) (escape_pairs L clusterCount) <->
        exists c i, (0 <= c)%Z /\ inject_Z c < clusterCount - 1 /\ (0 <= i < 8)%Z
          /\ index (leafs L) (c * LEAFS_PER_CLUSTER + LAST_GROUP_OFFSET + i) = Some a
          /\ index (leafs L) ((c + 1) * LEAFS_PER_CLUSTER + LAST_GROUP_OFFSET + i)
             = Some b)
  /\ LEAFS_PER_CLUSTER = 128%Z /\ LAST_GROUP_OFFSET = 120%Z
  /\ length (escape_segments L clusterCount)
     = (length (escape_pairs L clusterCount) * 20)%nat
  /\ ((length (leafs L) <= 248)%nat ->
      EscapeConnections L active clusterCount = Normal None).
Proof.
  split; [|split; [|split; [|split; [|split]]]].
  - rewrite EscapeConnections_closed. eexists. split; [reflexivity|].
    destruct (negb active || Qltb clusterCount 2); [reflexivity|].
    pose proof (escape_buffer_segments L clusterCount) as Hseg.
    destruct (escape_buffer L clusterCount) as [|q buf] eqn:E.
    + cbn in Hseg. now rewrite <- Hseg.
    + cbn [Nat.eqb length option_map]. rewrite Hseg.
      destruct (escape_segments L clusterCount) eqn:E'; [|reflexivity].
      unfold escape_buffer in E. rewrite E' in E. discriminate.
  - intros a b. unfold escape_pairs. rewrite in_flat_map. split.
    + intros (c & Hc & Hin). apply in_range_trip in Hc as [Hc0 Hc].
      apply in_flat_map in Hin as (i & Hi & Hin). apply in_range in Hi.
      exists c, i.
      destruct (index (leafs L) (c * LEAFS_PER_CLUSTER + LAST_GROUP_OFFSET + i));
        [|contradiction].
      destruct (index (leafs L) ((c + 1) * LEAFS_PER_CLUSTER + LAST_GROUP_OFFSET + i));
        [|contradiction].
      destruct Hin as [[= <- <-]|[]].
      repeat split; try assumption; cbn in Hi; lia.
    + intros (c & i & Hc0 & Hc & Hi & Ha & Hb).
      exists c. split; [now apply in_range_trip|].
      apply in_flat_map. exists i. split; [apply in_range; cbn; lia|].
      rewrite Ha, Hb. now left.
  - reflexivity.
  - reflexivity.
  - apply escape_segments_length.
  - intro Hshort. rewrite EscapeConnections_closed.
    rewrite escape_buffer_nil; [now destruct (negb active || Qltb clusterCount 2)|].
    unfold escape_pairs. apply flat_map_nil_in. intros c Hc.
    apply in_range in Hc. apply flat_map_nil_in. intros i Hi. apply in_range in Hi.
    rewrite (index_None _ (leafs L)
               ((c + 1) * LEAFS_PER_CLUSTER + LAST_GROUP_OFFSET + i))
      by (unfold LEAFS_PER_CLUSTER, LAST_GROUP_OFFSET, LEAF_GROUPS, LEAFS_PER_GROUP;
          lia).
    now destruct (index (leafs L) (c * LEAFS_PER_CLUSTER + LAST_GROUP_OFFSET + i)).
Qed.

Lemma escape_total_witness :
  (length (leafs (layout 1 false)) <= 248)%nat
  /\ EscapeConnections (layout 1 false) true 3 = Normal None.
Proof.
  assert (H : (length (leafs (layout 1 false)) <= 248)%nat)
    by (vm_compute; repeat constructor).
  split; [exact H|].
  exact (proj2 (proj2 (proj2 (proj2 (proj2
           (escape_total (layout 1 false) true 3))))) H).
Defined.

(** * Further properties of the generator and the builders *)

(** ** Insertion order and growth *)

Lemma gen_spines_grow (n k : nat) :
  exists ext, gen_spines (n + k) = (gen_spines n ++ ext)%list.
Proof.
  induction k as [|k [ext IH]].
  - exists []. now rewrite Nat.add_0_r, app_nil_r.
  - rewrite Nat.add_succ_r. unfold gen_spines in *.
    rewrite range_S, flat_map_app, IH, <- app_assoc. now eexists.
Qed.

Lemma gen_leafs_grow (n k : nat) :
  exists ext, gen_leafs (n + k) = (gen_leafs n ++ ext)%list.
Proof.
  induction k as [|k [ext IH]].
  - exists []. now rewrite Nat.add_0_r, app_nil_r.
  - rewrite Nat.add_succ_r. unfold gen_leafs in *.
    rewrite range_S, flat_map_app, IH, <- app_assoc. now eexists.
Qed.

Lemma trip_count_mono (a b : Q) : a <= b -> (trip_count a <= trip_count b)%nat.
Proof.
  intro H. apply Qceiling_resp_le in H. unfold trip_count. lia.
Qed.

Lemma layout_extends (clusterCount clusterCount' : Q) (isServerMode isServerMode' : bool) :
  clusterCount <= clusterCount' ->
  exists more_spines more_leafs,
    spines (layout clusterCount' isServerMode')
    = (spines (layout clusterCount isServerMode) ++ more_spines)%list
    /\ leafs (layout clusterCount' isServerMode')
       = (leafs (layout clusterCount isServerMode) ++ more_leafs)%list.
Proof.
  intro H. apply trip_count_mono in H. rewrite !layout_closed. cbn [spines leafs].
  replace (trip_count clusterCount')
    with (trip_count clusterCount + (trip_count clusterCount' - trip_count clusterCount))%nat
    by lia.
  destruct (gen_spines_grow (trip_count clusterCount)
              (trip_count clusterCount' - trip_count clusterCount)) as [es Hs].
  destruct (gen_leafs_grow (trip_count clusterCount)
              (trip_count clusterCount' - trip_count clusterCount)) as [el Hl].
  exists es, el. now split.
Qed.

(** X1: raising the cluster count (and toggling the servers) only appends
    to the spine and leaf sequences: the nodes already there keep their
    place, id, position and label. *)
Theorem layout_grows (clusterCount clusterCount' : Q) (isServerMode isServerMode' : bool) :
  clusterCount <= clusterCount' ->
  exists more_spines more_leafs,
    spines (layout clusterCount' isServerMode')
    = (spines (layout clusterCount isServerMode) ++ more_spines)%list
    /\ leafs (layout clusterCount' isServerMode')
       = (leafs (layout clusterCount isServerMode) ++ more_leafs)%list.
Proof. apply layout_extends. Qed.

Lemma layout_grows_witness :
  (1 : Q) <= 2
  /\ exists more_spines more_leafs,
       spines (layout 2 true) = (spines (layout 1 false) ++ more_spines)%list
       /\ leafs (layout 2 true) = (leafs (layout 1 false) ++ more_leafs)%list.
Proof.
  assert (H : (1 : Q) <= 2) by (intro E; discriminate E).
  split; [exact H|]. exact (layout_grows 1 2 false true H).
Defined.

Lemma range_cons (n : nat) : range (S n) = (0 :: map Z.succ (range n))%Z.
Proof.
  unfold range. cbn [seq map]. f_equal.
  rewrite <- seq_shift, !map_map. apply map_ext. intro j. lia.
Qed.

Lemma range_app (n k : nat) :
  range (n + k) = (range n ++ map (fun j => Z.of_nat n + j)%Z (range k))%list.
Proof.
  induction k as [|k IH].
  - cbn. now rewrite Nat.add_0_r, app_nil_r.
  - rewrite Nat.add_succ_r, !range_S, IH, map_app, <- app_assoc.
    cbn [map]. do 3 f_equal. lia.
Qed.

Lemma number_from_id_list (mks : list (Z -> NodeData)) :
  Forall keeps_id mks ->
  forall gid,
    map id (number_from gid mks) = map (fun j => gid + j)%Z (range (length mks)).
Proof.
  induction 1 as [|mk mks Hmk _ IH]; intro gid; [reflexivity|].
  cbn [number_from map length]. rewrite range_cons. cbn [map].
  rewrite Hmk, IH, map_map, Z.add_0_r. f_equal. apply map_ext. intro j. lia.
Qed.

Lemma all_servers_length (clusterCount : Q) :
  length (all_servers clusterCount) = Z.to_nat 1016.
Proof.
  unfold all_servers. rewrite length_flat_map.
  erewrite map_ext by (intro g; rewrite length_map, range_length; reflexivity).
  vm_compute. reflexivity.
Qed.

(** X2: the servers carry consecutive ids in sequence order, starting
    after the ids of all spines and leafs, at 192 times the number of
    clusters; so every added cluster shifts every server id by 192. *)
Theorem server_ids (clusterCount : Q) :
  map id (servers (layout clusterCount true))
  = map (fun j => 192 * Z.of_nat (trip_count clusterCount) + j)%Z
        (range (Z.to_nat 1016)).
Proof.
  rewrite layout_closed. cbn [servers]. unfold gen_servers.
  rewrite number_from_id_list by apply all_servers_keep.
  now rewrite all_servers_length.
Qed.

Lemma add_nodes_dense (k : NodeType) (mks : list (Z -> NodeData)) (st : GenState) :
  Forall keeps_id mks -> ids_dense st -> ids_dense (add_nodes k mks st).
Proof.
  intros Hmks [H0 Hperm].
  assert (Hcnt : globalIdCounter (add_nodes k mks st)
                 = (globalIdCounter st + Z.of_nat (length mks))%Z)
    by (now destruct k).
  split; [lia|].
  rewrite all_ids_add_nodes, Hcnt, number_from_id_list by exact Hmks.
  replace (Z.to_nat (globalIdCounter st + Z.of_nat (length mks)))
    with (Z.to_nat (globalIdCounter st) + length mks)%nat by lia.
  rewrite range_app, Z2Nat.id by exact H0.
  now apply Permutation_app_tail.
Qed.

Lemma generate_dense (clusterCount : Q) (isServerMode : bool) :
  ids_dense (generate clusterCount isServerMode).
Proof.
  unfold generate. cbv zeta.
  assert (Hclusters : ids_dense (for_lt clusterCount cluster_body
                                   (mkGenState [] [] [] 0%Z))).
  { apply for_lt_invariant.
    - intros c st _ _ Hst. rewrite cluster_body_closed.
      apply add_nodes_dense; [apply cluster_leafs_keep|].
      apply add_nodes_dense; [apply cluster_spines_keep|exact Hst].
    - split; [reflexivity|]. cbn. constructor. }
  destruct isServerMode; [|exact Hclusters].
  apply for_lt_invariant; [|exact Hclusters].
  intros g st _ _ Hst. rewrite server_body_closed.
  apply add_nodes_dense; [|exact Hst].
  apply Forall_forall. intros mk Hmk.
  apply in_map_iff in Hmk as (s & <- & _). intro gid. reflexivity.
Qed.

(** X3: the ids of a generated topology are exactly the integers
    [0 .. N-1], where [N] is the total number of nodes: no gap, none
    outside. *)
Theorem layout_ids_dense (clusterCount : Q) (isServerMode : bool) :
  let L := layout clusterCount isServerMode in
  let nodes := (spines L ++ leafs L ++ servers L)%list in
  Permutation (map id nodes) (range (length nodes)).
Proof.
  cbv zeta. destruct (generate_dense clusterCount isServerMode) as [H0 Hperm].
  unfold all_ids in Hperm. unfold layout. cbn [spines leafs servers].
  pose proof (Permutation_length Hperm) as Hlen.
  rewrite length_map, range_length in Hlen. now rewrite Hlen.
Qed.

Lemma all_servers_nth (clusterCount : Q) (g s : nat) :
  (g < 16)%nat -> (Z.of_nat s < serverCount (Z.of_nat g))%Z ->
  nth_error (all_servers clusterCount) (g * 64 + s)
  = Some (new_server clusterCount (Z.of_nat g) (Z.of_nat s)).
Proof.
  intros Hg Hs. unfold all_servers.
  rewrite (nth_error_flat_map_block _ _ _ 64 _ g s (Z.of_nat g)).
  - rewrite nth_error_map, nth_error_range by lia. reflexivity.
  - intros g' a' Hlt Hn.
    rewrite nth_error_range in Hn by (cbn; lia). injection Hn as <-.
    rewrite length_map, range_length. unfold serverCount.
    destruct (Z.eqb_spec (Z.of_nat g') 15); [lia|reflexivity].
  - apply nth_error_range. cbn; lia.
  - rewrite length_map, range_length. lia.
Qed.

(** X4: insertion order.  Spine [i] of cluster [c] is element [64 c + i]
    of the spine sequence and has id [192 c + i]; server [s] of group [g]
    is element [64 g + s] of the server sequence and has id
    [192 n + 64 g + s], [n] being the number of clusters. *)
Theorem sequence_order (n : nat) (isServerMode : bool) (c i g s : Z) :
  (0 <= c < Z.of_nat n)%Z -> (0 <= i < 64)%Z ->
  (0 <= g < 16)%Z -> (0 <= s < serverCount g)%Z ->
  index (spines (layout (inject_Z (Z.of_nat n)) isServerMode)) (64 * c + i)
  = Some (new_spine c i (192 * c + i))
  /\ index (servers (layout (inject_Z (Z.of_nat n)) true)) (64 * g + s)
     = Some (new_server (inject_Z (Z.of_nat n)) g s (192 * Z.of_nat n + (64 * g + s))).
Proof.
  intros Hc Hi Hg Hs. rewrite !layout_closed, trip_count_inject_Z, Nat2Z.id.
  cbn [spines servers]. unfold index. split.
  - destruct (Z.ltb_spec (64 * c + i) 0); [lia|].
    replace (Z.to_nat (64 * c + i)) with (Z.to_nat c * 64 + Z.to_nat i)%nat by lia.
    rewrite gen_spines_nth by lia. now rewrite !Z2Nat.id by lia.
  - destruct (Z.ltb_spec (64 * g + s) 0); [lia|].
    replace (Z.to_nat (64 * g + s)) with (Z.to_nat g * 64 + Z.to_nat s)%nat by lia.
    unfold gen_servers. rewrite trip_count_inject_Z, Nat2Z.id.
    rewrite (nth_error_number_from _ _ _
               (new_server (inject_Z (Z.of_nat n)) g s)).
    + do 2 f_equal. lia.
    + pose proof (all_servers_nth (inject_Z (Z.of_nat n)) (Z.to_nat g) (Z.to_nat s))
        as Hnth.
      rewrite !Z2Nat.id in Hnth by lia. apply Hnth; lia.
Qed.

Lemma sequence_order_witness :
  index (spines (layout (inject_Z (Z.of_nat 2)) false)) (64 * 1 + 3)
  = Some (new_spine 1 3 (192 * 1 + 3))
  /\ index (servers (layout (inject_Z (Z.of_nat 2)) true)) (64 * 15 + 55)
     = Some (new_server (inject_Z (Z.of_nat 2)) 15 55 (192 * Z.of_nat 2 + (64 * 15 + 55))).
Proof.
  apply (sequence_order 2 false 1 3 15 55);
    unfold serverCount, SERVERS_LAST_GROUP; cbn; lia.
Defined.

(** ** Sizes of the mesh and of the highlights *)

Lemma filter_flat_map (A B : Type) (p : B -> bool) (f : A -> list B) (l : list A) :
  filter p (flat_map f l) = flat_map (fun a => filter p (f a)) l.
Proof. induction l; cbn; [reflexivity|now rewrite filter_app, IHl]. Qed.

Lemma filter_all (A : Type) (p : A -> bool) (l : list A) :
  Forall (fun a => p a = true) l -> filter p l = l.
Proof. induction 1 as [|a l Ha _ IH]; cbn; [reflexivity|now rewrite Ha, IH]. Qed.

Lemma filter_none (A : Type) (p : A -> bool) (l : list A) :
  Forall (fun a => p a = false) l -> filter p l = [].
Proof. induction 1 as [|a l Ha _ IH]; cbn; [reflexivity|now rewrite Ha, IH]. Qed.

Lemma list_sum_const (A : Type) (f : A -> nat) (k : nat) (l : list A) :
  (forall a, In a l -> f a = k) -> list_sum (map f l) = (length l * k)%nat.
Proof.
  induction l as [|a l IH]; intro H; [reflexivity|].
  cbn [map length].
  change (list_sum (f a :: map f l)) with (f a + list_sum (map f l))%nat.
  rewrite (H a (or_introl eq_refl)), IH; [lia|].
  intros a' Ha'. apply H. now right.
Qed.

Lemma list_sum_single (k : nat) (c : Z) (n : nat) :
  (0 <= c < Z.of_nat n)%Z ->
  list_sum (map (fun c' => if (c' =? c)%Z then k else 0%nat) (range n)) = k.
Proof.
  induction n as [|n IH]; intro Hc; [lia|].
  rewrite range_S, map_app, list_sum_app. cbn [map].
  change (list_sum [if (Z.of_nat n =? c)%Z then k else 0%nat])
    with ((if (Z.of_nat n =? c)%Z then k else 0) + 0)%nat.
  destruct (Z.eqb_spec (Z.of_nat n) c) as [E|E].
  - rewrite (list_sum_const _ _ 0%nat); [lia|].
    intros c' Hc'. apply in_range in Hc'.
    destruct (Z.eqb_spec c' c); [lia|reflexivity].
  - rewrite IH by lia. lia.
Qed.

Lemma length_filter_list_prod (A B : Type) (test : A * B -> bool)
  (l : list A) (l' : list B) :
  length (filter test (list_prod l l'))
  = list_sum (map (fun a => length (filter (fun b => test (a, b)) l')) l).
Proof.
  induction l as [|a l IH]; [reflexivity|].
  cbn [list_prod map].
  change (list_sum (length (filter (fun b => test (a, b)) l')
                    :: map (fun a => length (filter (fun b => test (a, b)) l')) l))
    with (length (filter (fun b => test (a, b)) l')
          + list_sum (map (fun a => length (filter (fun b => test (a, b)) l')) l))%nat.
  rewrite filter_app, length_app, IH. f_equal.
  clear IH. induction l' as [|b l' IH]; [reflexivity|].
  cbn [map filter]. destruct (test (a, b)); cbn [length]; now rewrite IH.
Qed.

Lemma filter_by_field (B : Type) (f : NodeData -> B) (p : B -> bool)
  (nodes : list NodeData) :
  length (filter (fun n => p (f n)) nodes) = length (filter p (map f nodes)).
Proof. now rewrite filter_map_swap, length_map. Qed.

(** Nodes of one cluster among the generated spines and leafs. *)
Lemma gen_spines_cluster_count (n : nat) (c : Z) :
  (0 <= c < Z.of_nat n)%Z ->
  length (filter (fun m => opt_eqb (clusterId m) (Some c)) (gen_spines n)) = 64%nat.
Proof.
  intro Hc. unfold gen_spines. rewrite filter_flat_map, length_flat_map.
  erewrite map_ext_in; [apply (list_sum_single 64 c n Hc)|].
  intros c' _. cbn beta. destruct (Z.eqb_spec c' c) as [->|E].
  - rewrite filter_all; [now rewrite number_from_length, cluster_spines_length|].
    apply number_from_Forall. intros mk Hmk gid.
    apply in_map_iff in Hmk as (i & <- & _). cbn. apply Z.eqb_refl.
  - rewrite filter_none; [reflexivity|].
    apply number_from_Forall. intros mk Hmk gid.
    apply in_map_iff in Hmk as (i & <- & _). cbn. now apply Z.eqb_neq.
Qed.

Lemma gen_leafs_cluster_count (n : nat) (c : Z) :
  (0 <= c < Z.of_nat n)%Z ->
  length (filter (fun m => opt_eqb (clusterId m) (Some c)) (gen_leafs n)) = 128%nat.
Proof.
  intro Hc. unfold gen_leafs. rewrite filter_flat_map, length_flat_map.
  erewrite map_ext_in; [apply (list_sum_single 128 c n Hc)|].
  intros c' _. cbn beta. destruct (Z.eqb_spec c' c) as [->|E].
  - rewrite filter_all; [now rewrite number_from_length, cluster_leafs_length|].
    apply number_from_Forall. intros mk Hmk gid.
    apply in_flat_map in Hmk as (g & _ & Hmk).
    apply in_map_iff in Hmk as (l & <- & _). cbn. apply Z.eqb_refl.
  - rewrite filter_none; [reflexivity|].
    apply number_from_Forall. intros mk Hmk gid.
    apply in_flat_map in Hmk as (g & _ & Hmk).
    apply in_map_iff in Hmk as (l & <- & _). cbn. now apply Z.eqb_neq.
Qed.

Lemma cluster_leafs_groupIds (c gid : Z) :
  map groupId (number_from gid (cluster_leafs c))
  = flat_map (fun g => map (fun _ => Some g) (range (Z.to_nat LEAFS_PER_GROUP)))
             (range (Z.to_nat LEAF_GROUPS)).
Proof.
  rewrite (number_from_map _ groupId (fun mk => groupId (mk 0%Z))).
  - unfold cluster_leafs. rewrite map_flat_map. apply flat_map_ext. intro g.
    rewrite map_map. now apply map_ext.
  - intros mk Hmk gid'. apply in_flat_map in Hmk as (g & _ & Hmk).
    now apply in_map_iff in Hmk as (l & <- & _).
Qed.

(** Leafs of one group: 8 in every cluster. *)
Lemma gen_leafs_group_count (n : nat) (g : Z) :
  (0 <= g < 16)%Z ->
  length (filter (fun m => opt_eqb (groupId m) (Some g)) (gen_leafs n)) = (n * 8)%nat.
Proof.
  intro Hg. unfold gen_leafs. rewrite filter_flat_map, length_flat_map.
  rewrite (list_sum_const _ _ 8%nat); [now rewrite range_length|].
  intros c _.
  rewrite (filter_by_field _ groupId (fun o => opt_eqb o (Some g))).
  rewrite cluster_leafs_groupIds.
  assert (Hall : forallb (fun g =>
                   (length (filter (fun o => opt_eqb o (Some g))
                      (flat_map (fun g' => map (fun _ => Some g')
                                              (range (Z.to_nat LEAFS_PER_GROUP)))
                                (range (Z.to_nat LEAF_GROUPS)))) =? 8)%nat)
                 (range 16) = true) by (vm_compute; reflexivity).
  rewrite forallb_forall in Hall. apply Nat.eqb_eq, Hall, in_range. cbn; lia.
Qed.

Lemma gen_servers_groupIds (clusterCount : Q) :
  map groupId (gen_servers clusterCount)
  = flat_map (fun g => map (fun _ => Some g) (range (Z.to_nat (serverCount g))))
             (range (Z.to_nat LEAF_GROUPS)).
Proof. apply servers_project. reflexivity. Qed.

(** Servers of one group: 64, or 56 in group 15. *)
Lemma gen_servers_group_count (clusterCount : Q) (g : Z) :
  (0 <= g < 16)%Z ->
  Z.of_nat (length (filter (fun m => opt_eqb (groupId m) (Some g))
                           (gen_servers clusterCount)))
  = serverCount g.
Proof.
  intro Hg.
  rewrite (filter_by_field _ groupId (fun o => opt_eqb o (Some g))).
  rewrite gen_servers_groupIds.
  assert (Hall : forallb (fun g =>
                   (Z.of_nat (length (filter (fun o => opt_eqb o (Some g))
                      (flat_map (fun g' => map (fun _ => Some g')
                                              (range (Z.to_nat (serverCount g'))))
                                (range (Z.to_nat LEAF_GROUPS))))) =? serverCount g)%Z)
                 (range 16) = true) by (vm_compute; reflexivity).
  rewrite forallb_forall in Hall. apply Z.eqb_eq, Hall, in_range. cbn; lia.
Qed.

Lemma opt_eqb_sym (a b : option Z) : opt_eqb a b = opt_eqb b a.
Proof. destruct a, b; cbn; try reflexivity. apply Z.eqb_sym. Qed.

Lemma spine_leaf_pairs_length (n : nat) (isServerMode : bool) :
  length (spine_leaf_pairs (layout (inject_Z (Z.of_nat n)) isServerMode))
  = (n * 64 * 128)%nat.
Proof.
  rewrite layout_closed, trip_count_inject_Z, Nat2Z.id.
  unfold spine_leaf_pairs. cbn [spines leafs].
  rewrite length_filter_list_prod, (list_sum_const _ _ 128%nat).
  - now rewrite gen_spines_length.
  - intros a Ha. cbn [fst snd].
    pose proof (gen_spines_Forall
                  (fun a => length (filter (fun b => opt_eqb (clusterId a) (clusterId b))
                                           (gen_leafs n)) = 128%nat) n) as H.
    rewrite Forall_forall in H. apply H; [|exact Ha].
    intros c i gid Hc _. cbn [clusterId new_spine].
    erewrite filter_ext by (intro b; apply opt_eqb_sym).
    now apply gen_leafs_cluster_count.
Qed.

Lemma server_leaf_pairs_length (n : nat) :
  length (server_leaf_pairs (layout (inject_Z (Z.of_nat n)) true))
  = (Z.to_nat 1016 * (n * 8))%nat.
Proof.
  rewrite layout_closed, trip_count_inject_Z, Nat2Z.id.
  unfold server_leaf_pairs. cbn [servers leafs].
  rewrite length_filter_list_prod, (list_sum_const _ _ (n * 8)%nat).
  - unfold gen_servers. now rewrite number_from_length, all_servers_length.
  - intros a Ha. cbn [fst snd].
    pose proof (gen_servers_Forall
                  (fun a => length (filter (fun b => opt_eqb (groupId b) (groupId a))
                                           (gen_leafs n)) = (n * 8)%nat)
                  (inject_Z (Z.of_nat n))) as H.
    rewrite Forall_forall in H. apply H; [|exact Ha].
    intros g s gid Hg _. cbn [groupId new_server].
    now apply gen_leafs_group_count.
Qed.

(** X5: size of the static mesh.  With [n] clusters it has [8192 n]
    spine-leaf segments; with servers on it has [8128 n] server-leaf
    segments more, every server being joined to the 8 leafs of its group in
    every cluster. *)
Theorem full_mesh_size (n : nat) (isServerMode : bool) :
  Z.of_nat (length (lineSegments
                      (staticGeo (layout (inject_Z (Z.of_nat n)) isServerMode))))
  = (8192 * Z.of_nat n + if isServerMode then 8128 * Z.of_nat n else 0)%Z.
Proof.
  rewrite staticGeo_closed, lineSegments_segments, length_map, length_app.
  rewrite spine_leaf_pairs_length. destruct isServerMode.
  - rewrite server_leaf_pairs_length. lia.
  - rewrite layout_closed. unfold server_leaf_pairs. cbn [servers list_prod filter length].
    lia.
Qed.

Lemma activeGeo_size (L : NetworkLayout) (h : NodeData) :
  option_map (fun pts => Z.of_nat (length (lineSegments pts))) (activeGeo L (Some h))
  = Some (Z.of_nat (length (highlight_targets L h))).
Proof.
  rewrite activeGeo_closed. cbn [option_map].
  now rewrite lineSegments_from, length_map.
Qed.

(** X6: size of the highlight on a generated topology of [n] clusters.  A
    focused spine gets 128 segments; a focused leaf gets 64, plus, with
    servers on, the servers of its group (64, or 56 in group 15); a focused
    server gets [8 n], one per leaf of its group in every cluster, so the
    cost of a server highlight grows with the cluster count. *)
Theorem highlight_sizes (n : nat) (isServerMode : bool) :
  let L := layout (inject_Z (Z.of_nat n)) isServerMode in
  let size h := option_map (fun pts => Z.of_nat (length (lineSegments pts)))
                           (activeGeo L (Some h)) in
  Forall (fun h => size h = Some 128%Z) (spines L)
  /\ Forall (fun h => exists g, groupId h = Some g
                                /\ size h = Some (64 + if isServerMode
                                                       then serverCount g else 0)%Z)
            (leafs L)
  /\ Forall (fun h => size h = Some (8 * Z.of_nat n)%Z) (servers L).
Proof.
  cbv zeta. rewrite layout_closed, trip_count_inject_Z, Nat2Z.id.
  cbn [spines leafs servers]. split; [|split].
  - apply gen_spines_Forall. intros c i gid Hc _.
    rewrite activeGeo_size. unfold highlight_targets, same_cluster.
    cbn [type new_spine clusterId leafs].
    now rewrite gen_leafs_cluster_count.
  - apply gen_leafs_Forall. intros c g l gid Hc Hg _.
    exists g. split; [reflexivity|].
    rewrite activeGeo_size. unfold highlight_targets, same_cluster, same_group.
    cbn [type new_leaf clusterId groupId spines servers].
    rewrite length_app, Nat2Z.inj_add, gen_spines_cluster_count by exact Hc.
    destruct isServerMode; [now rewrite gen_servers_group_count|reflexivity].
  - destruct isServerMode; [|constructor].
    apply gen_servers_Forall. intros g s gid Hg _.
    rewrite activeGeo_size. unfold highlight_targets, same_group.
    cbn [type new_server groupId leafs].
    rewrite gen_leafs_group_count by exact Hg. f_equal. lia.
Qed.

(** ** Escape routes on generated topologies *)

Lemma escape_pairs_generated (n : nat) (isServerMode : bool) :
  escape_pairs (layout (inject_Z (Z.of_nat n)) isServerMode) (inject_Z (Z.of_nat n))
  = flat_map (fun c =>
      map (fun i => (new_leaf c 15 i (192 * c + 184 + i),
                     new_leaf (c + 1) 15 i (192 * (c + 1) + 184 + i))%Z)
          (range 8))
      (range (n - 1)).
Proof.
  unfold escape_pairs. rewrite layout_closed, trip_count_inject_Z, Nat2Z.id.
  rewrite trip_count_pred. cbn [leafs].
  replace (Z.to_nat (Z.of_nat n - 1)) with (n - 1)%nat by lia.
  apply flat_map_ext_in. intros c Hc. apply in_range in Hc.
  rewrite <- flat_map_single. apply flat_map_ext_in. intros i Hi.
  apply in_range in Hi. change (Z.of_nat (Z.to_nat LEAFS_PER_GROUP)) with 8%Z in Hi.
  unfold index.
  unfold LEAFS_PER_CLUSTER, LAST_GROUP_OFFSET, LEAF_GROUPS, LEAFS_PER_GROUP.
  destruct (Z.ltb_spec (c * (16 * 8) + (16 - 1) * 8 + i) 0); [lia|].
  destruct (Z.ltb_spec ((c + 1) * (16 * 8) + (16 - 1) * 8 + i) 0); [lia|].
  replace (Z.to_nat (c * (16 * 8) + (16 - 1) * 8 + i))
    with (Z.to_nat c * 128 + (15 * 8 + Z.to_nat i))%nat by lia.
  replace (Z.to_nat ((c + 1) * (16 * 8) + (16 - 1) * 8 + i))
    with (Z.to_nat (c + 1) * 128 + (15 * 8 + Z.to_nat i))%nat by lia.
  rewrite !gen_leafs_nth by lia.
  rewrite !Z2Nat.id by lia. do 3 f_equal; lia.
Qed.

(** X7: escape routes of [n] generated clusters.  The builder joins, for
    every pair of adjacent clusters [c], [c + 1], leaf [i] of group 15 of
    the one to leaf [i] of group 15 of the other: [8 (n - 1)] pairs and
    [160 (n - 1)] segments; the segments returned are, pair after pair, a
    connected run of 20 from the position of the leaf of cluster [c] to
    the position of the leaf of cluster [c + 1]; with fewer than two
    clusters it returns [null]. *)
Theorem escape_routes_generated (n : nat) (isServerMode : bool) :
  let L := layout (inject_Z (Z.of_nat n)) isServerMode in
  let pairs :=
    flat_map (fun c =>
      map (fun i => (new_leaf c 15 i (192 * c + 184 + i),
                     new_leaf (c + 1) 15 i (192 * (c + 1) + 184 + i))%Z)
          (range 8))
      (range (n - 1)) in
  escape_pairs L (inject_Z (Z.of_nat n)) = pairs
  /\ exists r curves,
       EscapeConnections L true (inject_Z (Z.of_nat n)) = Normal r
       /\ option_map (fun pts => length (lineSegments pts)) r
          = (if (n <=? 1)%nat then None else Some ((n - 1) * 160)%nat)
       /\ option_map lineSegments r
          = (if (n <=? 1)%nat then None else Some (concat curves))
       /\ Forall2 (fun pr sgs => joins (fst pr) (snd pr) sgs) pairs curves.
Proof.
  cbv zeta. split; [apply escape_pairs_generated|].
  destruct (escape_segments_joined (layout (inject_Z (Z.of_nat n)) isServerMode)
              (inject_Z (Z.of_nat n))) as (curves & Hcat & Hjoin).
  rewrite escape_pairs_generated in Hjoin.
  rewrite EscapeConnections_closed. eexists. exists curves.
  split; [reflexivity|].
  assert (Hlen : length (escape_segments (layout (inject_Z (Z.of_nat n)) isServerMode)
                                         (inject_Z (Z.of_nat n)))
                 = ((n - 1) * 160)%nat).
  { rewrite escape_segments_length, escape_pairs_generated.
    rewrite (flat_map_constant_length (c := 8)).
    - rewrite range_length. lia.
    - intros c _. now rewrite length_map, range_length. }
  cbn [negb orb].
  destruct (Nat.leb_spec n 1) as [Hle|Hgt].
  - assert (Hlt : Qltb (inject_Z (Z.of_nat n)) 2 = true).
    { apply Qltb_true. change 2 with (inject_Z 2). rewrite <- Zlt_Qlt. lia. }
    rewrite Hlt. cbn [option_map]. repeat split. exact Hjoin.
  - assert (Hge : Qltb (inject_Z (Z.of_nat n)) 2 = false).
    { apply Qltb_false. change 2 with (inject_Z 2). rewrite <- Zle_Qle. lia. }
    rewrite Hge.
    destruct (escape_buffer (layout (inject_Z (Z.of_nat n)) isServerMode)
                            (inject_Z (Z.of_nat n))) as [|q buf] eqn:E.
    + rewrite <- escape_buffer_segments, E in Hlen. cbn in Hlen. lia.
    + cbn [length Nat.eqb option_map]. rewrite <- E, escape_buffer_segments.
      rewrite Hlen, <- Hcat. repeat split. exact Hjoin.
Qed.

(** ** Shape of an escape curve *)

(** X8: an escape curve is a connected polyline of 20 segments from the
    leaf of the one cluster to the leaf of the other: the first segment
    starts at the position of [leafA], the last ends at the position of
    [leafB], and every segment starts where the previous one ends. *)
Theorem escape_curve_connects (leafA leafB : NodeData) :
  let sgs := curve_segments (escape_curve leafA leafB) in
  length sgs = 20%nat
  /\ (exists p q, nth_error sgs 0 = Some (p, q) /\ Veq p (position leafA))
  /\ (exists p q, nth_error sgs 19 = Some (p, q) /\ Veq q (position leafB))
  /\ chained sgs.
Proof.
  cbv zeta. split; [apply escape_curve_length|].
  assert (Hlen : (length (escape_curve leafA leafB) - 1 = 20)%nat).
  { unfold escape_curve, getPoints. cbv zeta.
    now rewrite length_map, range_length. }
  split; [|split; [|apply curve_segments_chained]].
  - unfold curve_segments. rewrite Hlen, nth_error_map, nth_error_seq_lt by lia.
    cbn [option_map]. do 2 eexists. split; [reflexivity|].
    unfold escape_curve. cbv zeta. rewrite getPoints_nth by lia.
    unfold Veq, getPoint. cbn [x y z].
    repeat split; now apply QuadraticBezier_start.
  - unfold curve_segments. rewrite Hlen, nth_error_map, nth_error_seq_lt by lia.
    cbn [option_map]. do 2 eexists. split; [reflexivity|].
    unfold escape_curve. cbv zeta. rewrite getPoints_nth by lia.
    unfold Veq, getPoint. cbn [x y z].
    repeat split; now apply QuadraticBezier_end.
Qed.

(** ** Buffers and segments *)

Lemma lineSegments_encode (sgs : list (Vector3 * Vector3)) :
  lineSegments (encode sgs) = sgs.
Proof.
  unfold encode. rewrite lineSegments_flat_map.
  rewrite <- (map_id sgs) at 2. apply map_ext. now intros [p q].
Qed.

(** X9: every buffer a builder returns is the encoding of the segments a
    [lineSegments] object reads from it, six numbers per segment and
    nothing left over; and reading an encoded sequence gives it back. *)
Theorem buffers_well_formed (L : NetworkLayout) (h : NodeData) (clusterCount : Q)
  (sgs : list (Vector3 * Vector3)) :
  lineSegments (encode sgs) = sgs
  /\ encode (lineSegments (staticGeo L)) = staticGeo L
  /\ option_map (fun pts => encode (lineSegments pts)) (activeGeo L (Some h))
     = activeGeo L (Some h)
  /\ exists r, EscapeConnections L true clusterCount = Normal r
               /\ option_map (fun pts => encode (lineSegments pts)) r = r.
Proof.
  split; [apply lineSegments_encode|split; [|split]].
  - rewrite staticGeo_closed, lineSegments_segments.
    unfold encode. now rewrite flat_map_map.
  - rewrite activeGeo_closed. cbn [option_map]. rewrite lineSegments_from.
    unfold encode. now rewrite flat_map_map.
  - rewrite EscapeConnections_closed. eexists. split; [reflexivity|].
    destruct (negb true || Qltb clusterCount 2); [reflexivity|].
    destruct (length (escape_buffer L clusterCount) =? 0)%nat; [reflexivity|].
    cbn [option_map]. now rewrite escape_buffer_segments.
Qed.

(** ** Colour pass of the node instances *)

Lemma NodeType_eqb_eq (a b : NodeType) : NodeType_eqb a b = true <-> a = b.
Proof. destruct a, b; cbn; split; congruence. Qed.

(** The four tests, by the types of the two nodes. *)
Lemma highlight_by_type (h n : NodeData) :
  highlight (Some h) n
  = match type h, type n with
    | spine, leaf | leaf, spine => opt_eqb (clusterId h) (clusterId n)
    | server, leaf | leaf, server => opt_eqb (groupId h) (groupId n)
    | _, _ => false
    end.
Proof.
  unfold highlight. cbv zeta.
  destruct (type h), (type n); cbn [NodeType_eqb andb];
    repeat match goal with |- context [opt_eqb ?a ?b] => destruct (opt_eqb a b) end;
    reflexivity.
Qed.

(** X10: the instances the colour pass brightens are the nodes the
    highlight builder draws lines to.  On a generated topology, for any
    focused node, the nodes with [highlight] set, in the order spines,
    leafs, servers, are exactly the targets of the highlight lines. *)
Theorem highlight_matches_lines (clusterCount : Q) (isServerMode : bool) (h : NodeData) :
  let L := layout clusterCount isServerMode in
  filter (highlight (Some h)) (spines L ++ leafs L ++ servers L)
  = highlight_targets L h.
Proof.
  cbv zeta.
  destruct (layout_shapes clusterCount isServerMode) as (Ssp & Slf & Ssv).
  set (L := layout clusterCount isServerMode) in *.
  assert (Hsp : forall n, In n (spines L) -> type n = spine)
    by (intros n Hn; rewrite Forall_forall in Ssp; apply (Ssp n Hn)).
  assert (Hlf : forall n, In n (leafs L) -> type n = leaf)
    by (intros n Hn; rewrite Forall_forall in Slf; apply (Slf n Hn)).
  assert (Hsv : forall n, In n (servers L) -> type n = server)
    by (intros n Hn; rewrite Forall_forall in Ssv; apply (Ssv n Hn)).
  rewrite !filter_app. unfold highlight_targets, same_cluster, same_group.
  destruct (type h) eqn:Eh.
  - rewrite (filter_none _ _ (spines L)), (filter_none _ _ (servers L)).
    + rewrite app_nil_r. cbn [app]. apply filter_ext_in. intros n Hn.
      rewrite highlight_by_type, Eh, (Hlf n Hn). apply opt_eqb_sym.
    + apply Forall_forall. intros n Hn.
      now rewrite highlight_by_type, Eh, (Hsv n Hn).
    + apply Forall_forall. intros n Hn.
      now rewrite highlight_by_type, Eh, (Hsp n Hn).
  - rewrite (filter_none _ _ (leafs L)).
    + cbn [app]. f_equal; apply filter_ext_in; intros n Hn.
      * rewrite highlight_by_type, Eh, (Hsp n Hn). apply opt_eqb_sym.
      * rewrite highlight_by_type, Eh, (Hsv n Hn). apply opt_eqb_sym.
    + apply Forall_forall. intros n Hn.
      now rewrite highlight_by_type, Eh, (Hlf n Hn).
  - rewrite (filter_none _ _ (spines L)), (filter_none _ _ (servers L)).
    + rewrite app_nil_r. cbn [app]. apply filter_ext_in. intros n Hn.
      rewrite highlight_by_type, Eh, (Hlf n Hn). apply opt_eqb_sym.
    + apply Forall_forall. intros n Hn.
      now rewrite highlight_by_type, Eh, (Hsv n Hn).
    + apply Forall_forall. intros n Hn.
      now rewrite highlight_by_type, Eh, (Hsp n Hn).
Qed.

Lemma isHovered_self (h : NodeData) : isHovered (Some h) h = true.
Proof.
  unfold isHovered. rewrite Z.eqb_refl. cbn. now apply NodeType_eqb_eq.
Qed.

Lemma isHovered_unique (nodes : list NodeData) (h : NodeData) :
  NoDup (map id nodes) -> In h nodes -> filter (isHovered (Some h)) nodes = [h].
Proof.
  induction nodes as [|a nodes IH]; intros Hnd Hin; [contradiction|].
  cbn [map] in Hnd. apply NoDup_cons_iff in Hnd as [Ha Hnd].
  cbn [filter]. destruct Hin as [->|Hin].
  - rewrite isHovered_self. f_equal. apply filter_none, Forall_forall.
    intros n Hn. unfold isHovered.
    destruct (Z.eqb_spec (id h) (id n)) as [E|E]; [|reflexivity].
    exfalso. apply Ha. rewrite E. now apply in_map.
  - assert (E : isHovered (Some h) a = false).
    { unfold isHovered. destruct (Z.eqb_spec (id h) (id a)) as [E|E]; [|reflexivity].
      exfalso. apply Ha. rewrite <- E. now apply in_map. }
    rewrite E. now apply IH.
Qed.

(** X11: when the focused node is a node of the generated topology,
    exactly one instance of the three meshes is the hovered one, the
    focused node itself, and that instance is not among the brightened
    ones; when no node of the topology has the focused node's id, no
    instance is the hovered one. *)
Theorem hovered_instance_unique (clusterCount : Q) (isServerMode : bool) (h : NodeData) :
  let L := layout clusterCount isServerMode in
  let nodes := (spines L ++ leafs L ++ servers L)%list in
  (In h nodes -> filter (isHovered (Some h)) nodes = [h])
  /\ highlight (Some h) h = false
  /\ (~ In (id h) (map id nodes) -> filter (isHovered (Some h)) nodes = []).
Proof.
  cbv zeta. split; [|split].
  - apply isHovered_unique.
    exact (proj1 (generate_fresh clusterCount isServerMode)).
  - rewrite highlight_by_type. now destruct (type h).
  - intro Hnot. apply filter_none, Forall_forall. intros n Hn. unfold isHovered.
    destruct (Z.eqb_spec (id h) (id n)) as [E|E]; [|reflexivity].
    exfalso. apply Hnot. rewrite E. now apply in_map.
Qed.

Lemma hovered_instance_unique_witness :
  exists h, nth_error (leafs (layout 1 false)) 5 = Some h
            /\ filter (isHovered (Some h))
                      (spines (layout 1 false) ++ leafs (layout 1 false)
                       ++ servers (layout 1 false))%list = [h].
Proof.
  destruct (nth_error (leafs (layout 1 false)) 5) as [h|] eqn:E;
    [|vm_compute in E; discriminate].
  exists h. split; [reflexivity|].
  apply (hovered_instance_unique 1 false h).
  apply in_or_app. right. apply in_or_app. left.
  exact (nth_error_In _ _ E).
Defined.

(** ** The scene component *)

Import Scene.

Lemma step_timers_consistent (st : State) (ev : Event) :
  timers_consistent st -> timers_consistent (step st ev).
Proof.
  unfold timers_consistent.
  intros [[Ha Ht]|[Ha [Ht|Ht]]]; destruct ev as [| | | |mesh [i|]| |];
    cbn [step]; rewrite ?Ha, ?Ht; cbn; auto.
Qed.

Lemma step_clusterCount (st : State) (ev : Event) :
  (clusterCount st <= clusterCount (step st ev) <= clusterCount st + 1)%Z.
Proof.
  destruct ev as [| | | |mesh [i|]| |]; cbn [step];
    try (destruct (isAutoAnimating st); cbn; lia); try (cbn; lia).
  destruct (timers st) as [|[|] rest]; cbn; lia.
Qed.

Lemma layout_of_sizes (st : State) :
  (0 <= clusterCount st)%Z ->
  Z.of_nat (length (spines (layout_of st))) = (64 * clusterCount st)%Z
  /\ Z.of_nat (length (leafs (layout_of st))) = (128 * clusterCount st)%Z.
Proof.
  intro H. unfold layout_of. rewrite layout_closed, trip_count_inject_Z.
  cbn [spines leafs]. rewrite gen_spines_length, gen_leafs_length. lia.
Qed.

(** X12: in every state the component can reach, the cluster count is an
    integer of at least 1, so the generator is only ever run on a positive
    integer and the rendered topology has [64 clusterCount] spines and
    [128 clusterCount] leafs; and at most one automatic sequence is in
    flight: the flag [isAutoAnimating] is set exactly while a timer is
    pending. *)
Theorem scene_invariant (st : State) :
  reachable st ->
  (1 <= clusterCount st)%Z
  /\ timers_consistent st
  /\ Z.of_nat (length (spines (layout_of st))) = (64 * clusterCount st)%Z
  /\ Z.of_nat (length (leafs (layout_of st))) = (128 * clusterCount st)%Z.
Proof.
  intro H.
  assert (Hinv : (1 <= clusterCount st)%Z /\ timers_consistent st).
  { induction H as [|st ev _ [Hc Ht]].
    - split; [cbn; lia|left; split; reflexivity].
    - split; [pose proof (step_clusterCount st ev); lia|].
      now apply step_timers_consistent. }
  destruct Hinv as [Hc Ht]. split; [exact Hc|split; [exact Ht|]].
  apply layout_of_sizes. lia.
Qed.

Lemma scene_invariant_witness :
  reachable (run initial [clickAuto; timeout])
  /\ (1 <= clusterCount (run initial [clickAuto; timeout]))%Z.
Proof.
  assert (H : reachable (run initial [clickAuto; timeout]))
    by (unfold run; cbn [fold_left]; repeat apply reachable_step;
        apply reachable_initial).
  split; [exact H|]. exact (proj1 (scene_invariant _ H)).
Defined.

Lemma clicks_ignored (st : State) (clicks : list Event) :
  isAutoAnimating st = true -> forallb is_click clicks = true ->
  run st clicks = st.
Proof.
  intros Ha Hc. unfold run. induction clicks as [|ev clicks IH]; [reflexivity|].
  cbn [forallb] in Hc. apply andb_true_iff in Hc as [Hev Hc].
  cbn [fold_left].
  assert (E : step st ev = st)
    by (destruct ev; try discriminate Hev; cbn [step]; now rewrite Ha).
  rewrite E. now apply IH.
Qed.

(** X13: the automatic sequence.  Started when none is running, it adds
    one cluster at once, toggles the escape routes when its first timer
    fires and the servers when its second fires, and then releases the
    controls; clicks on the four buttons in between change nothing. *)
Theorem auto_sequence (st : State) (clicks1 clicks2 : list Event) :
  isAutoAnimating st = false -> timers st = [] ->
  forallb is_click clicks1 = true -> forallb is_click clicks2 = true ->
  run st (clickAuto :: clicks1 ++ timeout :: clicks2 ++ [timeout])
  = mkState (hoveredNode st) (clusterCount st + 1) (negb (isEscapeMode st))
            (negb (isServerMode st)) false [].
Proof.
  intros Ha Ht H1 H2. unfold run. cbn [fold_left]. fold (run (step st clickAuto)).
  unfold run. rewrite fold_left_app.
  fold (run (step st clickAuto) clicks1).
  rewrite (clicks_ignored (step st clickAuto) clicks1)
    by (try exact H1; cbn [step]; now rewrite Ha).
  cbn [fold_left]. rewrite fold_left_app.
  fold (run (step (step st clickAuto) timeout) clicks2).
  rewrite (clicks_ignored (step (step st clickAuto) timeout) clicks2)
    by (try exact H2; cbn [step]; rewrite Ha, Ht; reflexivity).
  cbn [fold_left step]. rewrite Ha, Ht. reflexivity.
Qed.

Lemma auto_sequence_witness :
  run initial (clickAuto :: [clickAddCluster; clickServers]
                 ++ timeout :: [clickEscape] ++ [timeout])
  = mkState None 2 true true false [].
Proof.
  exact (auto_sequence initial [clickAddCluster; clickServers] [clickEscape]
           eq_refl eq_refl eq_refl eq_refl).
Defined.

Lemma spine_or_leaf_kept (c c' : Z) (sm sm' : bool) (h : NodeData) :
  (c <= c')%Z ->
  In h (spines (layout (inject_Z c) sm)) \/ In h (leafs (layout (inject_Z c) sm)) ->
  In h (spines (layout (inject_Z c') sm')) \/ In h (leafs (layout (inject_Z c') sm')).
Proof.
  intros Hc Hin.
  assert (Hq : inject_Z c <= inject_Z c') by (now rewrite <- Zle_Qle).
  destruct (layout_extends _ _ sm sm' Hq) as (es & el & -> & ->).
  destruct Hin as [Hin|Hin]; [left|right]; apply in_or_app; now left.
Qed.

Lemma step_focus_present (st : State) (ev : Event) :
  focus_present st -> focus_present (step st ev).
Proof.
  unfold focus_present, layout_of. intro H.
  assert (Hkeep : forall c' sm',
            (clusterCount st <= c')%Z ->
            match hoveredNode st with
            | None => True
            | Some h =>
                type h = server
                \/ In h (spines (layout (inject_Z c') sm'))
                \/ In h (leafs (layout (inject_Z c') sm'))
            end).
  { intros c' sm' Hc. destruct (hoveredNode st) as [h|]; [|exact I].
    destruct H as [H|H]; [now left|right].
    now apply (spine_or_leaf_kept (clusterCount st) c' (isServerMode st) sm'). }
  destruct ev as [| | | |mesh [i|]| |]; cbn [step];
    try (destruct (isAutoAnimating st);
         cbn [hoveredNode clusterCount isServerMode];
         try exact H; apply Hkeep; lia).
  - cbn [hoveredNode clusterCount isServerMode].
    destruct (nth_error (data_of st mesh) i) as [h|] eqn:E; [|exact I].
    apply nth_error_In in E. unfold layout_of in E. destruct mesh; cbn [data_of] in E.
    + right. now left.
    + right. now right.
    + left. destruct (layout_shapes (inject_Z (clusterCount st)) (isServerMode st))
        as (_ & _ & Ssv).
      rewrite Forall_forall in Ssv. apply (Ssv h E).
  - exact I.
  - destruct (timers st) as [|[|] rest];
      cbn [hoveredNode clusterCount isServerMode]; try exact H; apply Hkeep; lia.
Qed.

(** X14: a focused spine or leaf is always a node of the topology on
    screen: growing the cluster count and toggling the servers keep it in
    place.  Only a focused server can go stale, and it does: toggling the
    servers off by the automatic sequence while a server is focused leaves
    a focus that no node of the topology matches by id and type. *)
Theorem focus_stays_present (st : State) :
  (reachable st ->
   match hoveredNode st with
   | None => True
   | Some h => type h = server
               \/ In h (spines (layout_of st) ++ leafs (layout_of st))
   end)
  /\ exists evs h,
       hoveredNode (run initial evs) = Some h
       /\ type h = server
       /\ spec_resolve (layout_of (run initial evs)) h = None.
Proof.
  split.
  - intro H.
    assert (Hinv : focus_present st).
    { induction H as [|st ev _ IH]; [exact I|now apply step_focus_present]. }
    unfold focus_present in Hinv. destruct (hoveredNode st) as [h|]; [|exact I].
    destruct Hinv as [Hs|Hin]; [now left|right]. apply in_or_app. exact Hin.
  - exists [clickServers; clickAuto; pointerOver server (Some 0%nat); timeout; timeout].
    destruct (hoveredNode
                (run initial [clickServers; clickAuto; pointerOver server (Some 0%nat);
                              timeout; timeout])) as [h|] eqn:E;
      [|vm_compute in E; discriminate].
    exists h. split; [reflexivity|].
    vm_compute in E. injection E as <-. vm_compute. split; reflexivity.
Qed.

Lemma focus_stays_present_witness :
  let st := run initial [pointerOver leaf (Some 3%nat); clickAddCluster] in
  reachable st
  /\ match hoveredNode st with
     | None => True
     | Some h => type h = server
                 \/ In h (spines (layout_of st) ++ leafs (layout_of st))
     end.
Proof.
  cbv zeta.
  assert (H : reachable (run initial [pointerOver leaf (Some 3%nat); clickAddCluster]))
    by (unfold run; cbn [fold_left]; repeat apply reachable_step;
        apply reachable_initial).
  split; [exact H|]. exact (proj1 (focus_stays_present _) H).
Defined.

(** ** Camera target *)

(** X15: the orbit controls aim at the middle of the row of clusters,
    half way between the depth of the first and of the last cluster; the
    servers are centred on that same depth only while there are at most
    two clusters. *)
Theorem orbit_target_centred (n : Z) :
  (1 <= n)%Z ->
  z (orbitTarget (inject_Z n)) == (clusterZOffset 0 + clusterZOffset (n - 1)) / 2
  /\ (baseZ (inject_Z n) == z (orbitTarget (inject_Z n)) <-> (n <= 2)%Z).
Proof.
  intro Hn. unfold orbitTarget, clusterZOffset, baseZ, CLUSTER_SPACING_Z. cbn [z].
  assert (Hm : inject_Z (n - 1) == inject_Z n - 1).
  { unfold Z.sub. rewrite inject_Z_plus, inject_Z_opp. reflexivity. }
  assert (H1 : 1 <= inject_Z n) by (change 1 with (inject_Z 1); now rewrite <- Zle_Qle).
  split.
  - rewrite Hm. change (inject_Z 0) with 0. field.
  - assert (Hb : (0 + 60 * -1) / 2 == -30) by reflexivity.
    destruct (Qltb 1 (inject_Z n)) eqn:E.
    + rewrite Hb. apply Qltb_true in E. split.
      * intro H. assert (H2 : inject_Z n <= inject_Z 2) by (change (inject_Z 2) with 2; lra).
        now rewrite <- Zle_Qle in H2.
      * intro H. assert (Hn2 : n = 2%Z).
        { change 1 with (inject_Z 1) in E. rewrite <- Zlt_Qlt in E. lia. }
        subst n. reflexivity.
    + apply Qltb_false in E. split.
      * intros _. change 1 with (inject_Z 1) in E. rewrite <- Zle_Qle in E. lia.
      * intros _. lra.
Qed.

Lemma orbit_target_centred_witness :
  (1 <= 3)%Z
  /\ z (orbitTarget (inject_Z 3)) == (clusterZOffset 0 + clusterZOffset (3 - 1)) / 2.
Proof.
  split; [lia|]. apply (orbit_target_centred 3). lia.
Defined.

(** ** Where the nodes are *)

Lemma split_index (k m : nat) :
  (0 < m)%nat -> exists q r, k = (q * m + r)%nat /\ (r < m)%nat.
Proof.
  intro Hm. exists (k / m)%nat, (k mod m)%nat. split.
  - rewrite Nat.mul_comm. apply Nat.div_mod_eq.
  - now apply Nat.mod_upper_bound, Nat.neq_0_lt_0.
Qed.

Lemma Some_inj (A : Type) (u v : A) : Some u = Some v -> u = v.
Proof. congruence. Qed.

Lemma in_gen_spines (n : nat) (a : NodeData) :
  In a (gen_spines n) ->
  exists c i, (0 <= c < Z.of_nat n)%Z /\ (0 <= i < 64)%Z
              /\ a = new_spine c i (192 * c + i).
Proof.
  intro Hin. apply In_nth_error in Hin as [k Hk].
  assert (Hlt : (k < n * 64)%nat).
  { rewrite <- gen_spines_length. apply nth_error_Some. congruence. }
  destruct (split_index k 64 ltac:(lia)) as (c & i & -> & Hi).
  rewrite gen_spines_nth in Hk by nia.
  exists (Z.of_nat c), (Z.of_nat i). repeat split; try nia.
  apply Some_inj. rewrite <- Hk. reflexivity.
Qed.

Lemma in_gen_leafs (n : nat) (a : NodeData) :
  In a (gen_leafs n) ->
  exists c g l, (0 <= c < Z.of_nat n)%Z /\ (0 <= g < 16)%Z /\ (0 <= l < 8)%Z
                /\ a = new_leaf c g l (192 * c + 64 + (8 * g + l)).
Proof.
  intro Hin. apply In_nth_error in Hin as [k Hk].
  assert (Hlt : (k < n * 128)%nat).
  { rewrite <- gen_leafs_length. apply nth_error_Some. congruence. }
  destruct (split_index k 128 ltac:(lia)) as (c & j & -> & Hj).
  destruct (split_index j 8 ltac:(lia)) as (g & l & -> & Hl).
  rewrite gen_leafs_nth in Hk by nia.
  exists (Z.of_nat c), (Z.of_nat g), (Z.of_nat l).
  repeat split; try nia.
  apply Some_inj. rewrite <- Hk. do 2 f_equal. lia.
Qed.

Lemma gen_servers_nth (clusterCount : Q) (g s : nat) :
  (g < 16)%nat -> (Z.of_nat s < serverCount (Z.of_nat g))%Z ->
  nth_error (gen_servers clusterCount) (g * 64 + s)
  = Some (new_server clusterCount (Z.of_nat g) (Z.of_nat s)
            (192 * Z.of_nat (trip_count clusterCount) + Z.of_nat (g * 64 + s))).
Proof.
  intros Hg Hs. unfold gen_servers.
  apply nth_error_number_from. now apply all_servers_nth.
Qed.

Lemma in_gen_servers (clusterCount : Q) (a : NodeData) :
  In a (gen_servers clusterCount) ->
  exists g s, (0 <= g < 16)%Z /\ (0 <= s < serverCount g)%Z
              /\ a = new_server clusterCount g s
                       (192 * Z.of_nat (trip_count clusterCount) + (64 * g + s)).
Proof.
  intro Hin. apply In_nth_error in Hin as [k Hk].
  assert (Hlt : (k < Z.to_nat 1016)%nat).
  { rewrite <- (all_servers_length clusterCount),
      <- (number_from_length (192 * Z.of_nat (trip_count clusterCount))).
    apply nth_error_Some. unfold gen_servers in Hk. congruence. }
  destruct (split_index k 64 ltac:(lia)) as (g & s & -> & Hs).
  assert (Hg : (g < 16)%nat) by lia.
  assert (Hs' : (Z.of_nat s < serverCount (Z.of_nat g))%Z).
  { unfold serverCount, SERVERS_LAST_GROUP, SERVERS_PER_GROUP_STD.
    destruct (Z.eqb_spec (Z.of_nat g) 15); lia. }
  rewrite gen_servers_nth in Hk by assumption.
  exists (Z.of_nat g), (Z.of_nat s). repeat split; try lia.
  apply Some_inj. rewrite <- Hk. do 2 f_equal. lia.
Qed.

Lemma spine_x_injective (i i' : Z) :
  spineStartX + inject_Z i * SPINE_SPACING == spineStartX + inject_Z i' * SPINE_SPACING ->
  i = i'.
Proof.
  unfold SPINE_SPACING. generalize spineStartX. intros k H.
  apply inject_Z_injective. lra.
Qed.

Lemma group_x_injective (g g' : Z) : groupCenterX g == groupCenterX g' -> g = g'.
Proof.
  unfold groupCenterX, GROUP_SPACING. generalize groupStartX. intros k H.
  apply inject_Z_injective. lra.
Qed.

Lemma cluster_z_injective (c c' : Z) : clusterZOffset c == clusterZOffset c' -> c = c'.
Proof.
  unfold clusterZOffset, CLUSTER_SPACING_Z. intro H.
  apply inject_Z_injective. lra.
Qed.

Lemma leaf_z_injective (l c l' c' : Z) :
  (0 <= l < 8)%Z -> (0 <= l' < 8)%Z ->
  leaf_zOffset l + clusterZOffset c == leaf_zOffset l' + clusterZOffset c' ->
  l = l' /\ c = c'.
Proof.
  intros Hl Hl' H.
  unfold leaf_zOffset, clusterZOffset, LEAFS_PER_GROUP, LEAF_LOCAL_SPACING_Z,
    CLUSTER_SPACING_Z in H.
  unfold Qeq in H. cbn in H. lia.
Qed.

Lemma server_z_injective (b : Q) (g s s' : Z) :
  b + server_zOffset g s == b + server_zOffset g s' -> s = s'.
Proof.
  unfold server_zOffset, SERVER_SPACING. generalize (totalLength g / 2).
  intros k H. apply inject_Z_injective. lra.
Qed.

(** X16: no two nodes of a generated topology are at the same place: nodes
    of the three sequences with equal coordinates are the same node. *)
Theorem positions_distinct (clusterCount : Q) (isServerMode : bool) (a b : NodeData) :
  let L := layout clusterCount isServerMode in
  let nodes := (spines L ++ leafs L ++ servers L)%list in
  In a nodes -> In b nodes -> Veq (position a) (position b) -> a = b.
Proof.
  cbv zeta. intros Ha Hb (Hx & Hy & Hz).
  rewrite layout_closed in Ha, Hb. cbn [spines leafs servers] in Ha, Hb.
  assert (Hsv : forall n, In n (if isServerMode then gen_servers clusterCount else []) ->
                          In n (gen_servers clusterCount))
    by (intros n Hn; destruct isServerMode; [exact Hn|contradiction]).
  apply in_app_or in Ha as [Ha|Ha]; [|apply in_app_or in Ha as [Ha|Ha]];
    apply in_app_or in Hb as [Hb|Hb]; try (apply in_app_or in Hb as [Hb|Hb]);
    try apply Hsv in Ha; try apply Hsv in Hb;
    try (apply in_gen_spines in Ha as (c & i & Hc & Hi & ->));
    try (apply in_gen_leafs in Ha as (c & g & l & Hc & Hg & Hl & ->));
    try (apply in_gen_servers in Ha as (g & s & Hg & Hs & ->));
    try (apply in_gen_spines in Hb as (c' & i' & Hc' & Hi' & ->));
    try (apply in_gen_leafs in Hb as (c' & g' & l' & Hc' & Hg' & Hl' & ->));
    try (apply in_gen_servers in Hb as (g' & s' & Hg' & Hs' & ->));
    cbn [position new_spine new_leaf new_server x y z] in Hx, Hy, Hz;
    try discriminate Hy.
  - apply spine_x_injective in Hx. apply cluster_z_injective in Hz. now subst.
  - apply group_x_injective in Hx. apply leaf_z_injective in Hz as [-> ->]; [|lia|lia].
    now subst.
  - apply group_x_injective in Hx. subst g'. apply server_z_injective in Hz.
    now subst.
Qed.

Lemma positions_distinct_witness :
  exists a, nth_error (spines (layout 1 false)) 2 = Some a /\ a = a.
Proof.
  destruct (nth_error (spines (layout 1 false)) 2) as [a|] eqn:E;
    [|vm_compute in E; discriminate].
  exists a. split; [reflexivity|].
  assert (Hin : In a (spines (layout 1 false) ++ leafs (layout 1 false)
                      ++ servers (layout 1 false))%list)
    by (apply in_or_app; left; exact (nth_error_In _ _ E)).
  apply (positions_distinct 1 false a a Hin Hin).
  repeat split; reflexivity.
Defined.

(** ** Labels *)

Lemma uint_digits (d : Decimal.uint) : all_digits (NilEmpty.string_of_uint d) = true.
Proof. induction d; cbn; auto. Qed.

Lemma show_digits (n : Z) : (0 <= n)%Z -> all_digits (show n) = true.
Proof.
  intro H. unfold show. destruct n as [|p|p]; [reflexivity| |lia].
  cbn. unfold NilZero.string_of_uint.
  destruct (Pos.to_uint p); try apply uint_digits. reflexivity.
Qed.

Lemma show_injective (a b : Z) : show a = show b -> a = b.
Proof.
  unfold show. intro H.
  assert (Hnn : forall n, Z.to_int n <> Decimal.Pos Decimal.Nil
                          /\ Z.to_int n <> Decimal.Neg Decimal.Nil).
  { intros [|p|p]; cbn; split; try discriminate;
      intro E; injection E as E; exact (Unsigned.to_uint_nonnil p E). }
  assert (E : NilZero.int_of_string (NilZero.string_of_int (Z.to_int a))
              = NilZero.int_of_string (NilZero.string_of_int (Z.to_int b)))
    by congruence.
  rewrite !NilZero.isi in E by apply Hnn.
  injection E as E. rewrite <- (DecimalZ.of_to a), <- (DecimalZ.of_to b).
  now rewrite E.
Qed.

(** A run of digits followed by a hyphen can be read off unambiguously. *)
Lemma split_digits (d1 d2 r1 r2 : string) :
  all_digits d1 = true -> all_digits d2 = true ->
  (d1 ++ String "-" r1)%string = (d2 ++ String "-" r2)%string ->
  d1 = d2 /\ r1 = r2.
Proof.
  revert d2. induction d1 as [|ch d1 IH]; intros [|ch' d2] H1 H2 E; cbn in *.
  - injection E as E. now split.
  - injection E as <- _. discriminate H2.
  - injection E as -> _. discriminate H1.
  - injection E as <- E.
    apply andb_true_iff in H1 as [_ H1]. apply andb_true_iff in H2 as [_ H2].
    destruct (IH d2 H1 H2 E) as [-> ->]. now split.
Qed.

Lemma spine_label_injective (c i c' i' gid gid' : Z) :
  (0 <= c)%Z -> (0 <= c')%Z ->
  label (new_spine c i gid) = label (new_spine c' i' gid') -> c = c' /\ i = i'.
Proof.
  intros Hc Hc' E. cbn in E. injection E as E.
  apply split_digits in E as [Ec Ei]; try (apply show_digits; lia).
  injection Ei as Ei. apply show_injective in Ec, Ei. lia.
Qed.

Lemma leaf_label_injective (c g l c' g' l' gid gid' : Z) :
  (0 <= c)%Z -> (0 <= c')%Z -> (0 <= g)%Z -> (0 <= g')%Z ->
  label (new_leaf c g l gid) = label (new_leaf c' g' l' gid') ->
  c = c' /\ g = g' /\ l = l'.
Proof.
  intros Hc Hc' Hg Hg' E. cbn in E. injection E as E.
  apply split_digits in E as [Ec E]; try (apply show_digits; lia).
  injection E as E.
  apply split_digits in E as [Eg El]; try (apply show_digits; lia).
  apply show_injective in Ec, Eg, El. lia.
Qed.

Lemma server_label_injective (cc cc' : Q) (g s g' s' gid gid' : Z) :
  (0 <= g)%Z -> (0 <= g')%Z ->
  label (new_server cc g s gid) = label (new_server cc' g' s' gid') ->
  g = g' /\ s = s'.
Proof.
  intros Hg Hg' E. cbn in E. injection E as E.
  apply split_digits in E as [Eg Es]; try (apply show_digits; lia).
  apply show_injective in Eg, Es. lia.
Qed.

Lemma spine_leaf_label (c i c' g' l' gid gid' : Z) :
  (0 <= c)%Z -> (0 <= c')%Z ->
  label (new_spine c i gid) <> label (new_leaf c' g' l' gid').
Proof.
  intros Hc Hc' E. cbn in E. injection E as E.
  apply split_digits in E as [_ E]; try (apply show_digits; lia).
  discriminate E.
Qed.

(** X18: labels identify nodes: two nodes of a generated topology with
    the same label are the same node. *)
Theorem labels_distinct (clusterCount : Q) (isServerMode : bool) (a b : NodeData) :
  let L := layout clusterCount isServerMode in
  let nodes := (spines L ++ leafs L ++ servers L)%list in
  In a nodes -> In b nodes -> label a = label b -> a = b.
Proof.
  cbv zeta. intros Ha Hb E.
  rewrite layout_closed in Ha, Hb. cbn [spines leafs servers] in Ha, Hb.
  assert (Hsv : forall n, In n (if isServerMode then gen_servers clusterCount else []) ->
                          In n (gen_servers clusterCount))
    by (intros n Hn; destruct isServerMode; [exact Hn|contradiction]).
  apply in_app_or in Ha as [Ha|Ha]; [|apply in_app_or in Ha as [Ha|Ha]];
    apply in_app_or in Hb as [Hb|Hb]; try (apply in_app_or in Hb as [Hb|Hb]);
    try apply Hsv in Ha; try apply Hsv in Hb;
    try (apply in_gen_spines in Ha as (c & i & Hc & Hi & ->));
    try (apply in_gen_leafs in Ha as (c & g & l & Hc & Hg & Hl & ->));
    try (apply in_gen_servers in Ha as (g & s & Hg & Hs & ->));
    try (apply in_gen_spines in Hb as (c' & i' & Hc' & Hi' & ->));
    try (apply in_gen_leafs in Hb as (c' & g' & l' & Hc' & Hg' & Hl' & ->));
    try (apply in_gen_servers in Hb as (g' & s' & Hg' & Hs' & ->));
    try (cbn in E; discriminate E).
  - apply spine_label_injective in E as [-> ->]; [reflexivity|lia|lia].
  - exfalso. apply spine_leaf_label in E; [exact E|lia|lia].
  - exfalso. symmetry in E. apply spine_leaf_label in E; [exact E|lia|lia].
  - apply leaf_label_injective in E as (-> & -> & ->); [reflexivity|lia..].
  - apply server_label_injective in E as [-> ->]; [reflexivity|lia|lia].
Qed.

Lemma labels_distinct_witness :
  exists a, nth_error (leafs (layout 2 true)) 130 = Some a /\ a = a.
Proof.
  destruct (nth_error (leafs (layout 2 true)) 130) as [a|] eqn:E;
    [|vm_compute in E; discriminate].
  exists a. split; [reflexivity|].
  assert (Hin : In a (spines (layout 2 true) ++ leafs (layout 2 true)
                      ++ servers (layout 2 true))%list)
    by (apply in_or_app; right; apply in_or_app; left; exact (nth_error_In _ _ E)).
  exact (labels_distinct 2 true a a Hin Hin eq_refl).
Defined.

(** ** Extent of the mesh segments *)

(** X17: the static mesh is local.  A server-leaf segment joins nodes of
    equal width coordinate, the servers of a group being placed at the
    width of the leafs of that group; a spine-leaf segment stays in its
    cluster, its two ends at most 7 apart in depth. *)
Theorem mesh_segments_local (clusterCount : Q) (isServerMode : bool) :
  let L := layout clusterCount isServerMode in
  Forall (fun pr => x (position (fst pr)) = x (position (snd pr)))
         (server_leaf_pairs L)
  /\ Forall (fun pr => -7 <= z (position (snd pr)) - z (position (fst pr))
                       /\ z (position (snd pr)) - z (position (fst pr)) <= 7)
            (spine_leaf_pairs L).
Proof.
  cbv zeta. split; apply Forall_forall; intros [a b] Hin;
    apply filter_In in Hin as [Hin Heq]; apply in_prod_iff in Hin as [Ha Hb];
    rewrite layout_closed in Ha, Hb; cbn [spines leafs servers] in Ha, Hb;
    cbn [fst snd] in *; apply opt_eqb_eq in Heq.
  - destruct isServerMode; [|contradiction].
    apply in_gen_servers in Ha as (g & s & Hg & Hs & ->).
    apply in_gen_leafs in Hb as (c' & g' & l' & Hc' & Hg' & Hl' & ->).
    cbn in Heq. injection Heq as ->. reflexivity.
  - apply in_gen_spines in Ha as (c & i & Hc & Hi & ->).
    apply in_gen_leafs in Hb as (c' & g' & l' & Hc' & Hg' & Hl' & ->).
    cbn in Heq. injection Heq as ->.
    cbn [position new_spine new_leaf z].
    unfold leaf_zOffset, LEAF_LOCAL_SPACING_Z.
    assert (Hk : (inject_Z LEAFS_PER_GROUP - 1) / 2 == 7 # 2) by reflexivity.
    assert (H0 : 0 <= inject_Z l') by (change 0 with (inject_Z 0); rewrite <- Zle_Qle; lia).
    assert (H7 : inject_Z l' <= 7) by (change 7 with (inject_Z 7); rewrite <- Zle_Qle; lia).
    rewrite Hk. clear Hk.
    match goal with |- context [clusterZOffset ?k] => generalize (clusterZOffset k) end.
    generalize dependent (inject_Z l'). intros q H0 H7 q'. split; lra.
Qed.
